(** * Challenge controller (api-v3): funding, creation, teardown, winner

    A shallow embedding of [website/src/controllers/api-v3/challenges.js].

    Conventions of the embedding.
    - In the embedding of the handlers, the JavaScript numbers that hold
      currency ([balance], [prize]) are exact rationals [Q]: what is proved
      on it is the control flow of the handlers and the sums that the
      teardown writes, as the code forms them.  The funding block is given a
      second time on IEEE doubles ([fund_double]), and every statement about
      the amounts it moves is made there.  [challengeCount] is a double;
      timestamps are [Z].  A value that may be [undefined] is an [option].
    - The documents the handler holds in memory (the [user] of the request,
      the [group] it fetched, [req.body], the [challenge] it builds) live in a
      record [Mem]; the handler body runs in a state-and-exception monad over
      it, so that the objects as left by a [throw] can still be inspected.
    - The collections of the database are lists of documents in a [Store];
      every Mongo request of the teardown is a constructor of [Op], executed
      by [exec].
    - [res.t key] is the key itself.  [req.validationErrors()] is an input
      of createChallenge and of selectChallengeWinner (field
      [validationErrors] of the request); deleteChallenge and
      [selectChallengeWinner_route] compute it from the parameters their
      route binds.
    - The text of a TypeError is the engine's; the strings used here only
      tell the sites that throw apart. *)

From Stdlib Require Import QArith ZArith List String Bool Lia Lqa Permutation.
From Stdlib Require Import Sorted Ascii.
From Stdlib Require Import PrimFloat FloatOps SpecFloat FloatAxioms.
Import ListNotations.

Local Open Scope Q_scope.

#[local] Set Warnings "-inexact-float".

(** ** JavaScript values *)

(** [a > b] and [a >= b] on numbers. *)
Definition Qgtb (a b : Q) : bool := negb (Qle_bool a b).
Definition Qgeb (a b : Q) : bool := Qle_bool b a.
Definition Qltb (a b : Q) : bool := negb (Qle_bool b a).

(** Truthiness of a number: every number but zero. *)
Definition truthy (a : Q) : bool := negb (Qeq_bool a 0).

(** Comparisons whose left operand may be [undefined] (then [NaN]: false).
    The operand is a number or [undefined]; the other values a request body
    can carry there ([null], strings, booleans), which these comparisons
    would convert to numbers, are outside the embedding of the handlers. *)
Definition js_gt (a : option Q) (b : Q) : bool :=
  match a with Some x => Qgtb x b | None => false end.
Definition js_lt (a : option Q) (b : Q) : bool :=
  match a with Some x => Qltb x b | None => false end.

(** [a !== false] for a value that is a boolean or [undefined]. *)
Definition not_false (a : option bool) : bool :=
  match a with Some false => false | _ => true end.

(** [arr.indexOf(x) === -1] *)
Definition not_indexOf (arr : list string) (x : string) : bool :=
  negb (existsb (String.eqb x) arr).

(** ** Documents *)

Record LeaderOnly := mkLeaderOnly { lo_challenges : bool }.

Record Group := mkGroup {
  g_id : string;
  g_balance : Q;
  g_challengeCount : float;
  g_leader : string;
  g_leaderOnly : option LeaderOnly
}.

Record Tag := mkTag { tag_id : string; tag_challenge : option bool }.

Record User := mkUser {
  u_id : string;
  u_balance : Q;
  u_admin : bool;                       (* contributor.admin *)
  u_challenges : list string;
  u_tags : list Tag;
  u_achievements_challenges : list string;
  u_wonChallenge : option bool;         (* preferences.emailNotifications.wonChallenge *)
  u_name : string;                      (* profile.name *)
  u_guilds : list string;
  u_party : option string               (* party._id *)
}.

Record TaskChallenge := mkTaskChallenge {
  tc_id : option string;
  tc_broken : option string;
  tc_winner : option string
}.

Record Task := mkTask {
  t_id : string;
  t_type : string;
  t_text : string;
  t_userId : option string;
  t_challenge : TaskChallenge
}.

Record TasksOrder := mkTasksOrder {
  habits : list string;
  dailys : list string;
  todos : list string;
  rewards : list string
}.

Record Challenge := mkChallenge {
  c_id : string;
  c_name : string;
  c_group : string;
  c_leader : string;
  c_prize : Q;
  c_official : bool;
  c_timestamp : Z;
  c_tasksOrder : TasksOrder
}.

(** Field updates. *)
Definition set_g_balance (b : Q) (g : Group) : Group :=
  mkGroup (g_id g) b (g_challengeCount g) (g_leader g) (g_leaderOnly g).
Definition set_g_challengeCount (n : float) (g : Group) : Group :=
  mkGroup (g_id g) (g_balance g) n (g_leader g) (g_leaderOnly g).
Definition set_u_balance (b : Q) (u : User) : User :=
  mkUser (u_id u) b (u_admin u) (u_challenges u) (u_tags u)
    (u_achievements_challenges u) (u_wonChallenge u) (u_name u) (u_guilds u) (u_party u).
Definition set_u_challenges (l : list string) (u : User) : User :=
  mkUser (u_id u) (u_balance u) (u_admin u) l (u_tags u)
    (u_achievements_challenges u) (u_wonChallenge u) (u_name u) (u_guilds u) (u_party u).
Definition set_u_tags (l : list Tag) (u : User) : User :=
  mkUser (u_id u) (u_balance u) (u_admin u) (u_challenges u) l
    (u_achievements_challenges u) (u_wonChallenge u) (u_name u) (u_guilds u) (u_party u).
Definition set_u_achievements_challenges (l : list string) (u : User) : User :=
  mkUser (u_id u) (u_balance u) (u_admin u) (u_challenges u) (u_tags u)
    l (u_wonChallenge u) (u_name u) (u_guilds u) (u_party u).
Definition set_u_guilds (l : list string) (u : User) : User :=
  mkUser (u_id u) (u_balance u) (u_admin u) (u_challenges u) (u_tags u)
    (u_achievements_challenges u) (u_wonChallenge u) (u_name u) l (u_party u).
Definition set_t_challenge (tc : TaskChallenge) (t : Task) : Task :=
  mkTask (t_id t) (t_type t) (t_text t) (t_userId t) tc.
Definition set_c_tasksOrder (o : TasksOrder) (c : Challenge) : Challenge :=
  mkChallenge (c_id c) (c_name c) (c_group c) (c_leader c) (c_prize c)
    (c_official c) (c_timestamp c) o.

(** ** The request and the response *)

Record TaskSpec := mkTaskSpec { ts_type : string; ts_text : string }.

Record Body := mkBody {
  b_group : string;
  b_prize : option Q;
  b_tasks : option (list TaskSpec);
  b_name : string;
  b_leader : option string;
  b_official : bool
}.

Definition set_b_leader (l : option string) (b : Body) : Body :=
  mkBody (b_group b) (b_prize b) (b_tasks b) (b_name b) l (b_official b).
Definition set_b_official (o : bool) (b : Body) : Body :=
  mkBody (b_group b) (b_prize b) (b_tasks b) (b_name b) (b_leader b) o.

Record Params := mkParams { challengeId : string; winnerId : string }.

Inductive Error :=
| ValidationErrors (errs : list string)
| NotFound (msg : string)
| NotAuthorized (msg : string)
| TypeError (msg : string).

Inductive Payload :=
| PEmpty
| PChallenge (c : Challenge)
| PChallenges (cs : list Challenge).

Inductive Response :=
| respond (status : Z) (p : Payload)
| next (e : Error).

(** ** The database *)

Inductive Notification :=
| txnEmail (to : string) (template : string) (vars : list (string * string))
| sendNotify (to : string) (title : string) (msg : string).

Record Store := mkStore {
  s_challenges : list Challenge;
  s_tasks : list Task;
  s_users : list User;
  s_groups : list Group;
  s_outbox : list Notification        (* what the mail and push services were handed *)
}.

Definition set_s_challenges (l : list Challenge) (s : Store) : Store :=
  mkStore l (s_tasks s) (s_users s) (s_groups s) (s_outbox s).
Definition set_s_tasks (l : list Task) (s : Store) : Store :=
  mkStore (s_challenges s) l (s_users s) (s_groups s) (s_outbox s).
Definition set_s_users (l : list User) (s : Store) : Store :=
  mkStore (s_challenges s) (s_tasks s) l (s_groups s) (s_outbox s).
Definition set_s_groups (l : list Group) (s : Store) : Store :=
  mkStore (s_challenges s) (s_tasks s) (s_users s) l (s_outbox s).
Definition set_s_outbox (l : list Notification) (s : Store) : Store :=
  mkStore (s_challenges s) (s_tasks s) (s_users s) (s_groups s) l.

(** [findOne({_id: id})] *)
Definition Challenge_findOne (s : Store) (id : string) : option Challenge :=
  find (fun c => String.eqb (c_id c) id) (s_challenges s).
Definition User_findOne (s : Store) (id : string) : option User :=
  find (fun u => String.eqb (u_id u) id) (s_users s).

(** Modelled from the spec: [Group.getGroup] (models/group) is not among the
    sources; the group store answers [getById(id) -> Group?]. *)
Definition Group_getGroup (s : Store) (user : User) (groupId : string) : option Group :=
  find (fun g => String.eqb (g_id g) groupId) (s_groups s).

(** An update without [multi] changes the first document that matches. *)
Fixpoint update_first {A : Type} (p : A -> bool) (f : A -> A) (l : list A) : list A :=
  match l with
  | [] => []
  | x :: r => if p x then f x :: r else x :: update_first p f r
  end.

(** ** The handler monad: memory of the request, exceptions *)

Record Mem := mkMem {
  m_user : User;                   (* res.locals.user *)
  m_group : Group;                 (* group *)
  m_body : Body;                   (* req.body *)
  m_challenge : option Challenge;  (* challenge *)
  m_db : Store;
  m_uuid : nat -> string;          (* the identifiers the models draw *)
  m_next : nat;
  m_now : Z
}.

Definition set_m_user (u : User) (m : Mem) : Mem :=
  mkMem u (m_group m) (m_body m) (m_challenge m) (m_db m) (m_uuid m) (m_next m) (m_now m).
Definition set_m_group (g : Group) (m : Mem) : Mem :=
  mkMem (m_user m) g (m_body m) (m_challenge m) (m_db m) (m_uuid m) (m_next m) (m_now m).
Definition set_m_body (b : Body) (m : Mem) : Mem :=
  mkMem (m_user m) (m_group m) b (m_challenge m) (m_db m) (m_uuid m) (m_next m) (m_now m).
Definition set_m_challenge (c : option Challenge) (m : Mem) : Mem :=
  mkMem (m_user m) (m_group m) (m_body m) c (m_db m) (m_uuid m) (m_next m) (m_now m).
Definition set_m_db (s : Store) (m : Mem) : Mem :=
  mkMem (m_user m) (m_group m) (m_body m) (m_challenge m) s (m_uuid m) (m_next m) (m_now m).
Definition set_m_next (n : nat) (m : Mem) : Mem :=
  mkMem (m_user m) (m_group m) (m_body m) (m_challenge m) (m_db m) (m_uuid m) n (m_now m).

Definition M (A : Type) : Type := Mem -> (Error + A) * Mem.

Definition ret {A : Type} (a : A) : M A := fun m => (inr a, m).
Definition throw {A : Type} (e : Error) : M A := fun m => (inl e, m).
Definition bind {A B : Type} (c : M A) (k : A -> M B) : M B :=
  fun m => match c m with
           | (inl e, m') => (inl e, m')
           | (inr a, m') => k a m'
           end.
Definition gets {A : Type} (f : Mem -> A) : M A := fun m => (inr (f m), m).
Definition modify (f : Mem -> Mem) : M unit := fun m => (inr tt, f m).

Notation "x <- c ;; k" := (bind c (fun x => k))
  (at level 61, c at next level, right associativity).
Notation "c ;;; k" := (bind c (fun _ => k))
  (at level 61, right associativity).

(** ** createChallenge: the funding block (lines 53-73) *)

Definition prizeCost (prize : Q) : Q := prize / 4.

(** [group.balance && group.leader === user._id ? group.balance : 0] *)
Definition groupBalance (group : Group) (user : User) : Q :=
  if truthy (g_balance group) && String.eqb (g_leader group) (u_id user)
  then g_balance group else 0.

Definition fund (prize : option Q) : M unit :=
  match prize with
  | Some p =>
    if Qgtb p 0 then
      group <- gets m_group ;;
      user <- gets m_user ;;
      let groupBalance := groupBalance group user in
      let prizeCost := prizeCost p in
      if Qgtb prizeCost (u_balance user + groupBalance) then
        throw (NotAuthorized "cantAfford")
      else if Qgeb groupBalance prizeCost then
        modify (fun m => set_m_group (set_g_balance (g_balance (m_group m) - prizeCost) (m_group m)) m)
      else if Qgtb groupBalance 0 then
        remainder <- gets (fun m => prizeCost - g_balance (m_group m)) ;;
        modify (fun m => set_m_group (set_g_balance 0 (m_group m)) m) ;;;
        modify (fun m => set_m_user (set_u_balance (u_balance (m_user m) - remainder) (m_user m)) m)
      else
        modify (fun m => set_m_user (set_u_balance (u_balance (m_user m) - prizeCost) (m_user m)) m)
    else ret tt
  | None => ret tt
  end.

(** ** createChallenge: the funding block on doubles (lines 53-73) *)

(** The balances and the prize are JavaScript numbers, that is IEEE 754
    doubles, and lines 53-73 compute on them with rounding.  The block is
    given here on [float], the binary64 numbers, over the four fields of
    [group] and [user] that it reads.  [prize] is the number that
    [prize > 0] and [prize / 4] see: the value of the body converted by
    ToNumber, NaN when the body has no prize. *)

Record Funds := mkFunds {
  group_leader : string;    (* group.leader *)
  group_balance : float;    (* group.balance *)
  user_id : string;         (* user._id *)
  user_balance : float      (* user.balance *)
}.

Definition set_group_balance (x : float) (f : Funds) : Funds :=
  mkFunds (group_leader f) x (user_id f) (user_balance f).
Definition set_user_balance (x : float) (f : Funds) : Funds :=
  mkFunds (group_leader f) (group_balance f) (user_id f) x.

(** [a > b] and [a >= b] *)
Definition gt_double (a b : float) : bool := (b <? a)%float.
Definition ge_double (a b : float) : bool := (b <=? a)%float.

(** A number is truthy unless it is 0, -0 or NaN. *)
Definition truthy_double (x : float) : bool :=
  negb (x =? 0)%float && negb (is_nan x).

(** [group.balance && group.leader === user._id ? group.balance : 0] *)
Definition groupBalance_double (f : Funds) : float :=
  if truthy_double (group_balance f) && String.eqb (group_leader f) (user_id f)
  then group_balance f else 0%float.

Definition fund_double (prize : float) (f : Funds) : (Error + unit) * Funds :=
  if gt_double prize 0 then
    let groupBalance := groupBalance_double f in
    let prizeCost := (prize / 4)%float in
    if gt_double prizeCost (user_balance f + groupBalance) then
      (inl (NotAuthorized "cantAfford"), f)
    else if ge_double groupBalance prizeCost then
      (inr tt, set_group_balance (group_balance f - prizeCost) f)
    else if gt_double groupBalance 0 then
      let remainder := (prizeCost - group_balance f)%float in
      (inr tt, set_user_balance (user_balance f - remainder) (set_group_balance 0 f))
    else
      (inr tt, set_user_balance (user_balance f - prizeCost) f)
  else (inr tt, f).

(** ** createChallenge: authorization (lines 45-51) *)

(** [group.leaderOnly && group.leaderOnly.challenges] *)
Definition leaderOnly_challenges (group : Group) : bool :=
  match g_leaderOnly group with
  | Some lo => lo_challenges lo
  | None => false
  end.

Definition authorize (groupId : string) (prize : option Q) : M unit :=
  group <- gets m_group ;;
  user <- gets m_user ;;
  if leaderOnly_challenges group && negb (String.eqb (g_leader group) (u_id user)) then
    throw (NotAuthorized "onlyGroupLeaderChal")
  else if String.eqb groupId "habitrpg" && js_lt prize 1 then
    throw (NotAuthorized "pubChalsMinPrize")
  else ret tt.

(** ** createChallenge: construction (lines 75-88) *)

Definition fresh : M string :=
  id <- gets (fun m => m_uuid m (m_next m)) ;;
  modify (fun m => set_m_next (S (m_next m)) m) ;;;
  ret id.

Definition emptyTasksOrder : TasksOrder := mkTasksOrder [] [] [] [].

(** Modelled from the spec: the Challenge model (models/challenge, with its
    [sanitize]) is not among the sources; a challenge has an identity, an
    owning group, a leader, a prize amount, per-type ordered lists of task
    identities, an official flag and a creation timestamp, here taken from the
    body that line 78 and line 79 have just written. *)
Definition Challenge_new (b : Body) : M Challenge :=
  id <- fresh ;;
  now <- gets m_now ;;
  ret (mkChallenge id (b_name b) (b_group b)
         (match b_leader b with Some l => l | None => EmptyString end)
         (match b_prize b with Some p => p | None => 0 end)
         (b_official b) now emptyTasksOrder).

(** The models that [Tasks[taskToCreate.type]] can name. *)
Definition Tasks_model (type : string) : bool :=
  existsb (String.eqb type) ["habit"; "daily"; "todo"; "reward"]%string.

(** [tasksOrder[`${type}s`].push(id)] *)
Definition tasksOrder_push (type id : string) (o : TasksOrder) : TasksOrder :=
  if String.eqb type "habit" then mkTasksOrder (habits o ++ [id]) (dailys o) (todos o) (rewards o)
  else if String.eqb type "daily" then mkTasksOrder (habits o) (dailys o ++ [id]) (todos o) (rewards o)
  else if String.eqb type "todo" then mkTasksOrder (habits o) (dailys o) (todos o ++ [id]) (rewards o)
  else if String.eqb type "reward" then mkTasksOrder (habits o) (dailys o) (todos o) (rewards o ++ [id])
  else o.

(** [task.save()] *)
Definition Task_save (task : Task) : M Task :=
  modify (fun m => set_m_db (set_s_tasks (s_tasks (m_db m) ++ [task]) (m_db m)) m) ;;;
  ret task.

(** The arrow function of lines 82-88.
    Modelled from the spec: the task models (models/task) are not among the
    sources; a task built from a specification is a seed task, that is, it has
    no owning member. *)
Definition taskToCreate_callback (taskToCreate : TaskSpec) : M Task :=
  if Tasks_model (ts_type taskToCreate) then
    id <- fresh ;;
    challenge <- gets m_challenge ;;
    match challenge with
    | Some c =>
      let task := mkTask id (ts_type taskToCreate) (ts_text taskToCreate) None
                    (mkTaskChallenge (Some (c_id c)) None None) in
      modify (set_m_challenge
                (Some (set_c_tasksOrder (tasksOrder_push (t_type task) (t_id task) (c_tasksOrder c)) c))) ;;;
      Task_save task
    | None => throw (TypeError "Cannot read property '_id' of undefined")
    end
  else throw (TypeError "Tasks[taskToCreate.type] is not a constructor").

(** What is handed to [Array.prototype.map]: an array or a function. *)
Inductive Arg :=
| AnArray (a : list TaskSpec)
| AFunction (f : TaskSpec -> M Task).

Fixpoint mapM (f : TaskSpec -> M Task) (l : list TaskSpec) : M (list Task) :=
  match l with
  | [] => ret []
  | x :: r => y <- f x ;; ys <- mapM f r ;; ret (y :: ys)
  end.

(** [this.map(callbackfn, thisArg)]: when [callbackfn] is not callable the
    call throws a TypeError before any element is visited. *)
Definition Array_map (this : list TaskSpec) (callbackfn : Arg) (thisArg : Arg) : M (list Task) :=
  match callbackfn with
  | AFunction f => mapM f this
  | AnArray _ => throw (TypeError "object is not a function")
  end.

(** What [Q.all] is given and resolves to: plain values (which it passes
    through, writing nothing) and the results of the saves already started. *)
Inductive Saved :=
| ValChallenge (c : Challenge)
| ValGroup (g : Group)
| SavedTask (t : Task).

Definition construct : M (list Saved) :=
  modify (fun m => set_m_group (set_g_challengeCount (g_challengeCount (m_group m) + 1) (m_group m)) m) ;;;
  tasks <- gets (fun m => match b_tasks (m_body m) with Some l => l | None => [] end) ;;
  modify (fun m => set_m_body (set_b_leader (Some (u_id (m_user m))) (m_body m)) m) ;;;
  modify (fun m => set_m_body (set_b_official (u_admin (m_user m) && b_official (m_body m)) (m_body m)) m) ;;;
  body <- gets m_body ;;
  challenge <- Challenge_new body ;;
  modify (set_m_challenge (Some challenge)) ;;;
  toSave <- Array_map tasks (AnArray tasks) (AFunction taskToCreate_callback) ;;
  challenge <- gets m_challenge ;;
  group <- gets m_group ;;
  match challenge with
  | Some c => ret (ValChallenge c :: ValGroup group :: map SavedTask toSave)
  | None => throw (TypeError "challenge is undefined")
  end.

(** ** createChallenge: the second callback (lines 93-97) *)

Definition seed_of (cid : string) (t : Task) : bool :=
  match tc_id (t_challenge t), t_userId t with
  | Some i, None => String.eqb i cid
  | _, _ => false
  end.

Fixpoint copies (owner : string) (seeds : list Task) : M (list Task) :=
  match seeds with
  | [] => ret []
  | t :: r =>
    id <- fresh ;;
    cs <- copies owner r ;;
    ret (mkTask id (t_type t) (t_text t) (Some owner) (t_challenge t) :: cs)
  end.

(** Modelled from the spec: [syncToUser] (models/challenge) is not among the
    sources; it merges the new challenge into the creating member's own record
    (adds its seed tasks as the member's personal copies, adds the challenge
    to the member's joined set) and persists the member. *)
Definition syncToUser (savedChal : Challenge) : M unit :=
  user <- gets m_user ;;
  seeds <- gets (fun m => filter (seed_of (c_id savedChal)) (s_tasks (m_db m))) ;;
  cs <- copies (u_id user) seeds ;;
  let user' :=
    if not_indexOf (u_challenges user) (c_id savedChal)
    then set_u_challenges (u_challenges user ++ [c_id savedChal]) user
    else user in
  modify (set_m_user user') ;;;
  modify (fun m => set_m_db (set_s_tasks (s_tasks (m_db m) ++ cs) (m_db m)) m) ;;;
  modify (fun m => set_m_db
                     (set_s_users
                        (update_first (fun u => String.eqb (u_id u) (u_id user')) (fun _ => user')
                           (s_users (m_db m))) (m_db m)) m).

Definition respond_created (results : list Saved) : M Response :=
  match results with
  | ValChallenge savedChal :: _ =>
    syncToUser savedChal ;;;
    ret (respond 201 (PChallenge savedChal))
  | _ => throw (TypeError "savedChal.syncToUser is not a function")
  end.

(** ** createChallenge: the handler *)

Record Request := mkRequest {
  validationErrors : option (list string);   (* req.validationErrors() *)
  body : Body;
  params : Params;
  uuid : nat -> string;
  now : Z
}.

(** The callbacks of the promise chain, after the group has been found. *)
Definition createChallenge_chain (groupId : string) (prize : option Q) : M Response :=
  authorize groupId prize ;;;
  fund prize ;;;
  results <- construct ;;
  respond_created results.

(** What a run of the handler leaves: the response, the objects it held in
    memory and the database. *)
Record Created := mkCreated {
  cr_response : Response;
  cr_user : User;
  cr_group : option Group;
  cr_body : Body;
  cr_challenge : option Challenge;
  cr_store : Store
}.

Definition createChallenge (req : Request) (user : User) (s : Store) : Created :=
  match validationErrors req with
  | Some errs => mkCreated (next (ValidationErrors errs)) user None (body req) None s
  | None =>
    let groupId := b_group (body req) in
    let prize := b_prize (body req) in
    match Group_getGroup s user groupId with
    | None => mkCreated (next (NotFound "groupNotFound")) user None (body req) None s
    | Some group =>
      let m0 := mkMem user group (body req) None s (uuid req) 0 (now req) in
      match createChallenge_chain groupId prize m0 with
      | (inr r, m) => mkCreated r (m_user m) (Some (m_group m)) (m_body m) (m_challenge m) (m_db m)
      | (inl e, m) => mkCreated (next e) (m_user m) (Some (m_group m)) (m_body m) (m_challenge m) (m_db m)
      end
    end
  end.

(** ** getChallenges *)

Definition spreadTheWord : string := "95533e05-1ff9-4e46-970b-d77219f199e9".

(** [sort('-official -timestamp')] *)
Definition sorts_before (a b : Challenge) : bool :=
  match c_official a, c_official b with
  | true, false => true
  | false, true => false
  | _, _ => (c_timestamp b <=? c_timestamp a)%Z
  end.

Fixpoint insert_sorted (c : Challenge) (l : list Challenge) : list Challenge :=
  match l with
  | [] => [c]
  | x :: r => if sorts_before c x then c :: x :: r else x :: insert_sorted c r
  end.

Definition sort_challenges (l : list Challenge) : list Challenge :=
  fold_right insert_sorted [] l.

(** [groups] is the array [user.guilds] itself, so the pushes also grow the
    user's in-memory list. *)
Definition getChallenges (user : User) (s : Store) : Response * User * Store :=
  let groups := u_guilds user in
  let groups := match u_party user with Some p => groups ++ [p] | None => groups end in
  let groups := groups ++ ["habitrpg"%string] in
  let user := set_u_guilds groups user in
  let challenges :=
    filter (fun c =>
              (existsb (String.eqb (c_id c)) (u_challenges user)
               || existsb (String.eqb (c_group c)) groups
               || String.eqb (c_leader c) (u_id user))
              && negb (String.eqb (c_id c) spreadTheWord))
      (s_challenges s) in
  (respond 200 (PChallenges (sort_challenges challenges)), user, s).

(** ** _closeChal: the requests of the teardown *)

Record Broken := mkBroken { broken : option string; winner : option User }.

Inductive Op :=
| Challenge_remove (id : string)
    (* Challenge.remove({_id}) *)
| Task_remove (cid : string)
    (* Tasks.Task.remove({'challenge.id': cid, userId: {$exists: false}}) *)
| User_update_tags (cid : string)
    (* User.update({challenges: {$in: [cid]}, 'tags._id': cid},
         {$set: {'tags.$.challenge': false}, $pull: {challenges: cid}}, {multi: true}) *)
| Task_update (cid : string) (brokenReason : option string) (winnerName : option string)
    (* Tasks.Task.update({'challenge.id': cid}, {$set: {...}}, {multi: true}) *)
| Group_update (gid : string) (inc : float)
    (* Group.update({_id: gid}, {$inc: {challengeCount: inc}}) *)
| User_update_balance (uid : string) (inc : Q)
    (* User.update({_id: uid}, {$inc: {balance: inc}}) *)
| winner_save (fulfilled : bool) (w : User) (challengeName : string).
    (* winner.save().then(savedWinner => ...) *)

Definition bound_to (cid : string) (t : Task) : bool :=
  match tc_id (t_challenge t) with
  | Some i => String.eqb i cid
  | None => false
  end.

Definition unowned (t : Task) : bool :=
  match t_userId t with
  | None => true
  | Some _ => false
  end.

Definition break_task (brokenReason winnerName : option string) (t : Task) : Task :=
  set_t_challenge (mkTaskChallenge (tc_id (t_challenge t)) brokenReason winnerName) t.

Definition has_tag (cid : string) (u : User) : bool :=
  existsb (fun t => String.eqb (tag_id t) cid) (u_tags u).

Definition untag (cid : string) (u : User) : User :=
  set_u_challenges (filter (fun c => negb (String.eqb c cid)) (u_challenges u))
    (set_u_tags (update_first (fun t => String.eqb (tag_id t) cid)
                              (fun t => mkTag (tag_id t) (Some false)) (u_tags u)) u).

(** What the [then] of [winner.save()] hands to the mail and push services. *)
Definition won_notifications (savedWinner : User) (challengeName : string) : list Notification :=
  (if not_false (u_wonChallenge savedWinner)
   then [txnEmail (u_id savedWinner) "won-challenge" [("CHALLENGE_NAME"%string, challengeName)]]
   else [])
  ++ [sendNotify (u_id savedWinner) "wonChallenge" challengeName].

(** One request against the database.  [winner.save()] writes the paths the
    handler modified, [balance] and [achievements.challenges]; its [then]
    only runs when the save is fulfilled. *)
Definition exec (op : Op) (s : Store) : Store :=
  match op with
  | Challenge_remove id =>
    set_s_challenges (filter (fun c => negb (String.eqb (c_id c) id)) (s_challenges s)) s
  | Task_remove cid =>
    set_s_tasks (filter (fun t => negb (bound_to cid t && unowned t)) (s_tasks s)) s
  | User_update_tags cid =>
    set_s_users
      (map (fun u => if existsb (String.eqb cid) (u_challenges u) && has_tag cid u
                     then untag cid u else u) (s_users s)) s
  | Task_update cid brokenReason winnerName =>
    set_s_tasks
      (map (fun t => if bound_to cid t then break_task brokenReason winnerName t else t)
           (s_tasks s)) s
  | Group_update gid inc =>
    set_s_groups
      (update_first (fun g => String.eqb (g_id g) gid)
                    (fun g => set_g_challengeCount (g_challengeCount g + inc) g)
                    (s_groups s)) s
  | User_update_balance uid inc =>
    set_s_users
      (update_first (fun u => String.eqb (u_id u) uid)
                    (fun u => set_u_balance (u_balance u + inc) u)
                    (s_users s)) s
  | winner_save fulfilled w challengeName =>
    if fulfilled then
      set_s_outbox (s_outbox s ++ won_notifications w challengeName)
        (set_s_users
           (update_first (fun u => String.eqb (u_id u) (u_id w))
                         (fun u => set_u_achievements_challenges (u_achievements_challenges w)
                                     (set_u_balance (u_balance w) u))
                         (s_users s)) s)
    else s
  end.

(** The array [tasks] of the requests issued, and the winner as the function
    leaves it in memory.  [saved] tells whether [winner.save()] is fulfilled,
    which the database decides. *)
Definition _closeChal (saved : bool) (challenge : Challenge) (b : Broken) : list Op * option User :=
  let winner := winner b in
  let brokenReason := broken b in
  let tasks :=
    [ Challenge_remove (c_id challenge);
      Task_remove (c_id challenge);
      User_update_tags (c_id challenge);
      Task_update (c_id challenge) brokenReason (option_map u_name winner);
      Group_update (c_group challenge) (-1) ] in
  let tasks :=
    if negb (String.eqb (c_group challenge) "habitrpg")
       && match brokenReason with
          | Some r => String.eqb r "CHALLENGE_DELETED"
          | None => false
          end
    then tasks ++ [User_update_balance (c_leader challenge) (c_prize challenge / 4)]
    else tasks in
  match winner with
  | Some w =>
    let w := set_u_achievements_challenges (u_achievements_challenges w ++ [c_name challenge]) w in
    let w := set_u_balance (u_balance w + c_prize challenge / 4) w in
    (tasks ++ [winner_save saved w (c_name challenge)], Some w)
  | None => (tasks, None)
  end.

(** [Q.allSettled(tasks)], the requests taking effect in the order in which
    they were issued. *)
Definition Q_allSettled (tasks : list Op) (s : Store) : Store :=
  fold_left (fun s op => exec op s) tasks s.

(** The requests run concurrently: any order of completion is possible. *)
Definition settles (tasks : list Op) (s s' : Store) : Prop :=
  exists order, Permutation tasks order /\ s' = Q_allSettled order s.

(** ** Validation of the route parameters *)

(** express-validator is a dependency, not one of the sources.  What is used
    of it: [req.checkParams(name, msg)] reads [req.params[name]], which is
    undefined unless the route binds [name]; each validator of the chain that
    fails records [msg]; [req.validationErrors()] gives the recorded errors,
    and nothing when there are none. *)

Definition is_space (a : ascii) : bool :=
  existsb (Nat.eqb (nat_of_ascii a)) [9; 10; 11; 12; 13; 32]%nat.

Definition is_hex (a : ascii) : bool :=
  let n := nat_of_ascii a in
  ((48 <=? n) && (n <=? 57) || (65 <=? n) && (n <=? 70) || (97 <=? n) && (n <=? 102))%nat.

Fixpoint all_space (v : string) : bool :=
  match v with
  | EmptyString => true
  | String a r => is_space a && all_space r
  end.

(** [n] hexadecimal digits, and what follows them. *)
Fixpoint hex_digits (n : nat) (v : string) : option string :=
  match n with
  | O => Some v
  | S k =>
    match v with
    | String a r => if is_hex a then hex_digits k r else None
    | EmptyString => None
    end
  end.

Definition hyphen (v : option string) : option string :=
  match v with
  | Some (String "-" r) => Some r
  | _ => None
  end.

Definition then_hex (n : nat) (v : option string) : option string :=
  match v with
  | Some r => hex_digits n r
  | None => None
  end.

(** [notEmpty()] and [isUUID()] on the value of a parameter. *)
Definition notEmpty (value : option string) : bool :=
  match value with
  | Some v => negb (all_space v)
  | None => false
  end.

Definition isUUID (value : option string) : bool :=
  match then_hex 12 (hyphen (then_hex 4 (hyphen (then_hex 4 (hyphen (then_hex 4 (hyphen
           (then_hex 8 value)))))))) with
  | Some EmptyString => true
  | _ => false
  end.

(** [req.checkParams(name, msg).notEmpty().isUUID()] *)
Definition checkParams_notEmpty_isUUID (value : option string) (msg : string) : list string :=
  (if notEmpty value then [] else [msg]) ++ (if isUUID value then [] else [msg]).

(** [req.validationErrors()] *)
Definition validationErrors_of (recorded : list string) : option (list string) :=
  match recorded with
  | [] => None
  | _ => Some recorded
  end.

(** [req.params[name]] under '/challenges/:challengeId' and under
    '/challenges/:challengeId/selectWinner/:winnerId'. *)
Definition deleteChallenge_params (p : Params) (name : string) : option string :=
  if String.eqb name "challengeId" then Some (challengeId p) else None.

Definition selectChallengeWinner_params (p : Params) (name : string) : option string :=
  if String.eqb name "challengeId" then Some (challengeId p)
  else if String.eqb name "winnerId" then Some (winnerId p)
  else None.

(** ** deleteChallenge and selectChallengeWinner *)

(** Line 212 checks the parameter 'challenge'. *)
Definition deleteChallenge (saved : bool) (req : Request) (user : User) (s : Store)
  : Response * Store :=
  let validationErrors :=
    validationErrors_of
      (checkParams_notEmpty_isUUID (deleteChallenge_params (params req) "challenge")
         "challengeIdRequired") in
  match validationErrors with
  | Some errs => (next (ValidationErrors errs), s)
  | None =>
    match Challenge_findOne s (challengeId (params req)) with
    | None => (next (NotFound "challengeNotFound"), s)
    | Some challenge =>
      if negb (String.eqb (c_leader challenge) (u_id user)) && negb (u_admin user) then
        (next (NotAuthorized "onlyLeaderDeleteChal"), s)
      else
        (respond 200 PEmpty,
         Q_allSettled (fst (_closeChal saved challenge (mkBroken (Some "CHALLENGE_DELETED"%string) None))) s)
    end
  end.

(** The second callback of selectChallengeWinner (lines 263-269).  Building
    the message of the NotFound reads [req.parama.winnerId], and [req.parama]
    is undefined. *)
Definition selectChallengeWinner_winner (saved : bool) (challenge : option Challenge)
           (winner : option User) (s : Store) : Response * Store :=
  match winner with
  | None => (next (TypeError "Cannot read property 'winnerId' of undefined"), s)
  | Some w =>
    match challenge with
    | None => (next (TypeError "Cannot read property '_id' of null"), s)
    | Some c =>
      if not_indexOf (u_challenges w) (c_id c) then
        (next (TypeError "Cannot read property 'winnerId' of undefined"), s)
      else
        (respond 200 PEmpty,
         Q_allSettled (fst (_closeChal saved c (mkBroken (Some "CHALLENGE_DELETED"%string) (Some w)))) s)
    end
  end.

(** [let challenge;] is declared in the handler and assigned on line 259
    only; the tests of lines 256 and 257 read it, not [challengeFound]. *)
Definition selectChallengeWinner (saved : bool) (req : Request) (user : User) (s : Store)
  : Response * Store :=
  let challenge : option Challenge := None in
  match validationErrors req with
  | Some errs => (next (ValidationErrors errs), s)
  | None =>
    let challengeFound := Challenge_findOne s (challengeId (params req)) in
    match challenge with
    | None => (next (NotFound "challengeNotFound"), s)
    | Some c =>
      if negb (String.eqb (c_leader c) (u_id user)) && negb (u_admin user) then
        (next (NotAuthorized "onlyLeaderDeleteChal"), s)
      else
        let challenge := challengeFound in
        selectChallengeWinner_winner saved challenge (User_findOne s (winnerId (params req))) s
    end
  end.

(** selectChallengeWinner with the checks of lines 247 and 248 run on the
    parameters of its route. *)
Definition selectChallengeWinner_route (saved : bool) (req : Request) (user : User) (s : Store)
  : Response * Store :=
  let recorded :=
    checkParams_notEmpty_isUUID (selectChallengeWinner_params (params req) "challenge")
      "challengeIdRequired"
    ++ checkParams_notEmpty_isUUID (selectChallengeWinner_params (params req) "winnerId")
         "winnerIdRequired" in
  selectChallengeWinner saved
    (mkRequest (validationErrors_of recorded) (body req) (params req) (uuid req) (now req))
    user s.

(** ** Quantities the statements speak of *)

(** The rational that a double stands for.  The zeros stand for 0; the
    infinities and NaN stand for no rational and are given 0 here. *)
Definition exact_value (x : float) : Q :=
  match Prim2SF x with
  | S754_finite s m e => (if s then -1 else 1) * inject_Z (Zpos m) * Qpower 2 e
  | _ => 0
  end.

(** What a run of the funding block taking the funds from [f] to [f'] drew
    from the group and from the member, as exact amounts. *)
Definition groupContribution (f f' : Funds) : Q :=
  exact_value (group_balance f) - exact_value (group_balance f').
Definition memberContribution (f f' : Funds) : Q :=
  exact_value (user_balance f) - exact_value (user_balance f').

(** The three ways a prize cost [c] is paid, [e] being the eligible group
    balance: each is the outcome of the tests of lines 61 and 64 and the
    balances that the branch writes. *)
Definition group_pays_in_full (c e : float) (f f' : Funds) : Prop :=
  ge_double e c = true
  /\ (e = group_balance f \/ c = 0%float)
  /\ f' = set_group_balance (group_balance f - c) f.
Definition group_and_member_pay (c e : float) (f f' : Funds) : Prop :=
  ge_double e c = false /\ gt_double e 0 = true
  /\ e = group_balance f
  /\ f' = set_user_balance (user_balance f - (c - group_balance f)) (set_group_balance 0 f).
Definition member_pays_in_full (c e : float) (f f' : Funds) : Prop :=
  ge_double e c = false /\ gt_double e 0 = false
  /\ f' = set_user_balance (user_balance f - c) f.

(** The request passes the tests of lines 45-51. *)
Definition authorized (group : Group) (user : User) (groupId : string) (prize : option Q) : bool :=
  negb (leaderOnly_challenges group && negb (String.eqb (g_leader group) (u_id user)))
  && negb (String.eqb groupId "habitrpg" && js_lt prize 1).

(** The request passes the test of line 57. *)
Definition affordable (group : Group) (user : User) (prize : option Q) : bool :=
  match prize with
  | Some p => negb (Qgtb p 0 && Qgtb (prizeCost p) (u_balance user + groupBalance group user))
  | None => true
  end.

(** The requests of a teardown, read collection by collection. *)



(** The fulfilled saves among the requests. *)
Definition fulfilled_saves (op : Op) : list (User * string) :=
  match op with
  | winner_save true w challengeName => [(w, challengeName)]
  | _ => []
  end.

(** What a request adds to the balance of the member [uid]. *)
Definition balance_incs (uid : string) (op : Op) : list Q :=
  match op with
  | User_update_balance uid' inc => if String.eqb uid' uid then [inc] else []
  | _ => []
  end.

Definition notify (p : User * string) : list Notification :=
  won_notifications (fst p) (snd p).

Definition add_balance (b : option Q) (inc : Q) : option Q :=
  option_map (fun x => x + inc) b.

(** What a request does to the stored document of the member [uid]. *)
Definition user_effect (uid : string) (op : Op) (u : User) : User :=
  match op with
  | User_update_tags cid =>
    if existsb (String.eqb cid) (u_challenges u) && has_tag cid u then untag cid u else u
  | User_update_balance uid' inc =>
    if String.eqb uid' uid then set_u_balance (u_balance u + inc) u else u
  | winner_save true w _ =>
    if String.eqb (u_id w) uid
    then set_u_achievements_challenges (u_achievements_challenges w)
           (set_u_balance (u_balance w) u)
    else u
  | _ => u
  end.

(** The test of line 174. *)
Definition refunds (challenge : Challenge) (b : Broken) : bool :=
  negb (String.eqb (c_group challenge) "habitrpg")
  && match broken b with
     | Some r => String.eqb r "CHALLENGE_DELETED"
     | None => false
     end.

(** The winner as lines 180 and 181 leave it. *)
Definition awarded (challenge : Challenge) (w : User) : User :=
  set_u_balance (u_balance w + c_prize challenge / 4)
    (set_u_achievements_challenges
       (u_achievements_challenges w ++ [c_name challenge]) w).

(** The stored balance of a member. *)
Definition stored_balance (uid : string) (s : Store) : option Q :=
  option_map u_balance (User_findOne s uid).

(** A request that does not save the member [uid]. *)
Definition spares (uid : string) (op : Op) : bool :=
  match op with
  | winner_save _ w _ => negb (String.eqb (u_id w) uid)
  | _ => true
  end.

(** What the two requests on tasks do to one task. *)
Definition keeps (cid : string) (t : Task) : bool := negb (bound_to cid t && unowned t).

Definition breaks (cid : string) (b : Broken) (t : Task) : Task :=
  if bound_to cid t then break_task (broken b) (option_map u_name (winner b)) t else t.

(** A task as it was, up to the annotation that teardown writes. *)
Definition same_task (t t' : Task) : Prop :=
  t_id t' = t_id t /\ t_type t' = t_type t /\ t_text t' = t_text t
  /\ t_userId t' = t_userId t /\ tc_id (t_challenge t') = tc_id (t_challenge t).

(** ** Sample documents *)

Definition alice : User :=
  mkUser "alice" 10 false [] [] [] None "Alice" [] None.
Definition root : User :=
  mkUser "root" 10 true [] [] [] None "Root" [] None.
Definition bob : User :=
  mkUser "bob" 1 false ["chal-1"%string] [mkTag "chal-1" (Some true)] []
    (Some false) "Bob" [] None.
Definition guild : Group := mkGroup "guild-1" 1 3 "alice" None.

Definition habit_spec : TaskSpec := mkTaskSpec "habit" "Floss".

Definition sample_body (prize : Q) (official : bool) : Body :=
  mkBody "guild-1" (Some prize) (Some [habit_spec]) "Flossing" None official.

Definition sample_uuid (n : nat) : string :=
  match n with
  | O => "uuid-0"
  | S O => "uuid-1"
  | _ => "uuid-n"
  end.

Definition sample_request (prize : Q) (official : bool) : Request :=
  mkRequest None (sample_body prize official) (mkParams "chal-1" "bob") sample_uuid 1000.

Definition chal1 : Challenge :=
  mkChallenge "chal-1" "Flossing" "guild-1" "alice" 8 false 900
    (mkTasksOrder ["seed-1"%string] [] [] []).

Definition seed1 : Task :=
  mkTask "seed-1" "habit" "Floss" None (mkTaskChallenge (Some "chal-1"%string) None None).
Definition copy1 : Task :=
  mkTask "copy-1" "habit" "Floss" (Some "bob"%string)
    (mkTaskChallenge (Some "chal-1"%string) None None).
Definition other1 : Task :=
  mkTask "own-1" "todo" "Shop" (Some "bob"%string) (mkTaskChallenge None None None).

Definition sample_store : Store :=
  mkStore [chal1] [seed1; copy1; other1] [alice; bob; root] [guild] [].

Definition sample_mem (u : User) (prize : Q) : Mem :=
  mkMem u guild (sample_body prize false) None sample_store sample_uuid 0 1000.

(** ** Further quantities *)

(** The list that getChallenges answers with. *)
Definition listed (user : User) (s : Store) : list Challenge :=
  match fst (fst (getChallenges user s)) with
  | respond _ (PChallenges cs) => cs
  | _ => []
  end.

(** The challenges a member may see: the ones joined, the ones of the
    member's guilds, of the party, of habitrpg, and the ones the member
    leads. *)
Definition visible_to (user : User) (c : Challenge) : Prop :=
  In (c_id c) (u_challenges user)
  \/ In (c_group c) (u_guilds user)
  \/ u_party user = Some (c_group c)
  \/ c_group c = "habitrpg"%string
  \/ c_leader c = u_id user.

(** What a request does to the challenges. *)
Definition challenge_removes (op : Op) : list string :=
  match op with
  | Challenge_remove id => [id]
  | _ => []
  end.

Definition remove_challenge (cs : list Challenge) (id : string) : list Challenge :=
  filter (fun c => negb (String.eqb (c_id c) id)) cs.

(** The joined set and the tags of a member, and what the request of lines
    153-159 does to them. *)
Definition membership (u : User) : list string * list Tag := (u_challenges u, u_tags u).

Definition untagged (cid : string) (p : list string * list Tag) : list string * list Tag :=
  if existsb (String.eqb cid) (fst p) && existsb (fun t => String.eqb (tag_id t) cid) (snd p)
  then (filter (fun c => negb (String.eqb c cid)) (fst p),
        update_first (fun t => String.eqb (tag_id t) cid)
                     (fun t => mkTag (tag_id t) (Some false)) (snd p))
  else p.

Definition tag_updates (op : Op) : list string :=
  match op with
  | User_update_tags cid => [cid]
  | _ => []
  end.

(** Two requests whose effects do not depend on their order. *)
Definition commute (a b : Op) : Prop :=
  forall s, exec a (exec b s) = exec b (exec a s).

(** The error createChallenge passes to [next], test by test in the order of
    the source. *)
Definition createChallenge_error (req : Request) (user : User) (s : Store) : Error :=
  match validationErrors req with
  | Some errs => ValidationErrors errs
  | None =>
    match Group_getGroup s user (b_group (body req)) with
    | None => NotFound "groupNotFound"
    | Some g =>
      if leaderOnly_challenges g && negb (String.eqb (g_leader g) (u_id user))
      then NotAuthorized "onlyGroupLeaderChal"
      else if String.eqb (b_group (body req)) "habitrpg" && js_lt (b_prize (body req)) 1
      then NotAuthorized "pubChalsMinPrize"
      else if affordable g user (b_prize (body req))
      then TypeError "object is not a function"
      else NotAuthorized "cantAfford"
    end
  end.

(** [a] may come before [b] in the order of getChallenges. *)
Definition before (a b : Challenge) : Prop := sorts_before a b = true.

(** More documents: the public group, a group that reserves challenges to
    its leader, and challenges of several kinds. *)
Definition tavern : Group := mkGroup "habitrpg" 0 7 "root" None.
Definition closed_guild : Group := mkGroup "guild-2" 5 0 "alice" (Some (mkLeaderOnly true)).

Definition chal_public : Challenge :=
  mkChallenge "chal-2" "Reading" "habitrpg" "root" 4 true 100 emptyTasksOrder.
Definition chal_recent : Challenge :=
  mkChallenge "chal-3" "Running" "guild-9" "zoe" 0 false 950 emptyTasksOrder.
Definition chal_hidden : Challenge :=
  mkChallenge spreadTheWord "Spread the Word" "habitrpg" "root" 0 true 50 emptyTasksOrder.

Definition wide_store : Store :=
  mkStore [chal1; chal_recent; chal_public; chal_hidden] [seed1; copy1; other1]
    [alice; bob; root] [guild; tavern; closed_guild] [].

(** * Properties *)

(** ** Numbers *)

Lemma Qgtb_true (a b : Q) : Qgtb a b = true -> b < a.
Proof.
  unfold Qgtb. intros H. apply negb_true_iff in H.
  apply Qnot_le_lt. intros L. apply Qle_bool_iff in L. congruence.
Qed.

Lemma Qgtb_false (a b : Q) : Qgtb a b = false -> a <= b.
Proof.
  unfold Qgtb. intros H. apply negb_false_iff in H. now apply Qle_bool_iff.
Qed.

Lemma Qgtb_intro (a b : Q) : b < a -> Qgtb a b = true.
Proof.
  intros H. destruct (Qgtb a b) eqn:E; [reflexivity|].
  apply Qgtb_false in E. lra.
Qed.

Lemma Qgeb_true (a b : Q) : Qgeb a b = true -> b <= a.
Proof. unfold Qgeb. intros H. now apply Qle_bool_iff. Qed.

Lemma Qgeb_false (a b : Q) : Qgeb a b = false -> a < b.
Proof.
  unfold Qgeb. intros H. apply Qnot_le_lt. intros L.
  apply Qle_bool_iff in L. congruence.
Qed.

(** ** The funding block *)

(** The four ways through lines 53-73 for a positive prize. *)
Lemma fund_cases (p : Q) (m : Mem) :
  0 < p ->
  let g := m_group m in
  let u := m_user m in
  let e := groupBalance g u in
  let c := prizeCost p in
  (u_balance u + e < c
   /\ fund (Some p) m = (inl (NotAuthorized "cantAfford"), m))
  \/ (c <= u_balance u + e /\ c <= e
      /\ fund (Some p) m = (inr tt, set_m_group (set_g_balance (g_balance g - c) g) m))
  \/ (c <= u_balance u + e /\ 0 < e /\ e < c
      /\ fund (Some p) m
         = (inr tt, set_m_user (set_u_balance (u_balance u - (c - g_balance g)) u)
                      (set_m_group (set_g_balance 0 g) m)))
  \/ (c <= u_balance u + e /\ e <= 0
      /\ fund (Some p) m = (inr tt, set_m_user (set_u_balance (u_balance u - c) u) m)).
Proof.
  intros Hp g u e c.
  unfold fund. rewrite (Qgtb_intro p 0 Hp).
  unfold bind, gets, modify, throw, ret.
  fold g u e c.
  destruct (Qgtb c (u_balance u + e)) eqn:E1.
  { left. split; [now apply Qgtb_true|reflexivity]. }
  apply Qgtb_false in E1.
  destruct (Qgeb e c) eqn:E2.
  { right; left. repeat split; [exact E1|now apply Qgeb_true]. }
  apply Qgeb_false in E2.
  destruct (Qgtb e 0) eqn:E3.
  { right; right; left. apply Qgtb_true in E3. repeat split; assumption. }
  right; right; right. apply Qgtb_false in E3. repeat split; assumption.
Qed.

(** A prize that is absent or not positive moves nothing. *)
Lemma fund_no_prize (prize : option Q) (m : Mem) :
  js_gt prize 0 = false -> fund prize m = (inr tt, m).
Proof.
  unfold fund, js_gt. destruct prize as [p|]; [|reflexivity].
  intros ->. reflexivity.
Qed.

(** Funding touches the two balances and nothing else. *)
Lemma fund_frame (prize : option Q) (m m' : Mem) (r : Error + unit) :
  fund prize m = (r, m') ->
  exists gb ub,
    m' = set_m_user (set_u_balance ub (m_user m)) (set_m_group (set_g_balance gb (m_group m)) m)
    /\ (r = inl (NotAuthorized "cantAfford") \/ r = inr tt)
    /\ (forall e, r = inl e -> gb = g_balance (m_group m) /\ ub = u_balance (m_user m)).
Proof.
  assert (Same : m = set_m_user (set_u_balance (u_balance (m_user m)) (m_user m))
                       (set_m_group (set_g_balance (g_balance (m_group m)) (m_group m)) m)).
  { destruct m as [[] [] ? ? ? ? ? ?]; reflexivity. }
  destruct (js_gt prize 0) eqn:G.
  - destruct prize as [p|]; [|discriminate]. simpl in G. apply Qgtb_true in G.
    intros H.
    destruct (fund_cases p m G) as [[_ F]|[(_ & _ & F)|[(_ & _ & _ & F)|(_ & _ & F)]]];
      rewrite F in H; injection H as Hr Hm; subst r m'.
    + exists (g_balance (m_group m)), (u_balance (m_user m)).
      split; [exact Same|]. split; [now left|]. intros; now split.
    + exists (g_balance (m_group m) - prizeCost p), (u_balance (m_user m)).
      split; [destruct m as [[] [] ? ? ? ? ? ?]; reflexivity|].
      split; [now right|]. intros e He; discriminate.
    + exists 0, (u_balance (m_user m) - (prizeCost p - g_balance (m_group m))).
      split; [reflexivity|]. split; [now right|]. intros e He; discriminate.
    + exists (g_balance (m_group m)), (u_balance (m_user m) - prizeCost p).
      split; [destruct m as [[] [] ? ? ? ? ? ?]; reflexivity|].
      split; [now right|]. intros e He; discriminate.
  - rewrite (fund_no_prize prize m G). intros H; injection H as Hr Hm; subst r m'.
    exists (g_balance (m_group m)), (u_balance (m_user m)).
    split; [exact Same|]. split; [now right|]. intros e He; discriminate.
Qed.

(** ** The funding block on doubles *)

(** Rounding keeps the sign it is given. *)
Lemma binary_round_aux_sign (prec emax : Z) (s : bool) (m e : Z) (l : location) :
  match binary_round_aux prec emax s m e l with
  | S754_zero s' | S754_infinity s' | S754_finite s' _ _ => s' = s
  | S754_nan => True
  end.
Proof.
  unfold binary_round_aux.
  destruct (shr_fexp prec emax m e l) as [r e'].
  destruct (shr_fexp prec emax _ e' loc_Exact) as [r' e''].
  destruct (shr_m r'); [reflexivity| |exact I].
  destruct (e'' <=? emax - prec)%Z; reflexivity.
Qed.


(** The quarter of a positive prize is not negative: when it is not above
    zero, it has been rounded to zero. *)
Lemma quarter_zero (prize : float) :
  gt_double prize 0 = true -> ge_double 0 (prize / 4) = true -> (prize / 4 = 0)%float.
Proof.
  unfold gt_double, ge_double. intros P C. apply Prim2SF_inj.
  revert P C. rewrite ltb_spec, leb_spec, div_spec.
  change (Prim2SF 0) with (S754_zero false).
  change (Prim2SF 4) with (S754_finite false 4503599627370496 (-50)).
  destruct (Prim2SF prize) as [s|s| |s m e]; try (intros H; discriminate H).
  - destruct s; intros H; [discriminate H|]. intros K; discriminate K.
  - destruct s; intros H; [discriminate H|].
    unfold SF64div, SFdiv.
    destruct (SFdiv_core_binary prec emax (Z.pos m) e 4503599627370496 (-50)) as [[mz ez] lz].
    pose proof (binary_round_aux_sign prec emax (xorb false false) mz ez lz) as S.
    destruct (binary_round_aux prec emax (xorb false false) mz ez lz) as [s'|s'| |s' m' e'];
      simpl in S; subst; intros K; try discriminate K; reflexivity.
Qed.


Lemma groupBalance_double_cases (f : Funds) :
  (groupBalance_double f = group_balance f
   /\ String.eqb (group_leader f) (user_id f) = true)
  \/ (groupBalance_double f = 0%float
      /\ truthy_double (group_balance f) && String.eqb (group_leader f) (user_id f) = false).
Proof.
  unfold groupBalance_double.
  destruct (truthy_double (group_balance f)); simpl.
  - destruct (String.eqb (group_leader f) (user_id f)); [left|right]; now split.
  - right. now split.
Qed.

(** An eligible balance above zero is the balance of the group. *)
Lemma groupBalance_double_pos (f : Funds) :
  gt_double (groupBalance_double f) 0 = true -> groupBalance_double f = group_balance f.
Proof.
  intros H. destruct (groupBalance_double_cases f) as [[E _]|[E _]]; [exact E|].
  rewrite E in H. discriminate H.
Qed.

(** The five ways through lines 53-73. *)
Lemma fund_double_cases (prize : float) (f : Funds) :
  let e := groupBalance_double f in
  let c := (prize / 4)%float in
  (gt_double prize 0 = false /\ fund_double prize f = (inr tt, f))
  \/ (gt_double prize 0 = true /\ gt_double c (user_balance f + e) = true
      /\ fund_double prize f = (inl (NotAuthorized "cantAfford"), f))
  \/ (gt_double prize 0 = true /\ gt_double c (user_balance f + e) = false
      /\ ge_double e c = true
      /\ fund_double prize f = (inr tt, set_group_balance (group_balance f - c) f))
  \/ (gt_double prize 0 = true /\ gt_double c (user_balance f + e) = false
      /\ ge_double e c = false /\ gt_double e 0 = true
      /\ fund_double prize f
         = (inr tt, set_user_balance (user_balance f - (c - group_balance f))
                      (set_group_balance 0 f)))
  \/ (gt_double prize 0 = true /\ gt_double c (user_balance f + e) = false
      /\ ge_double e c = false /\ gt_double e 0 = false
      /\ fund_double prize f = (inr tt, set_user_balance (user_balance f - c) f)).
Proof.
  intros e c. unfold fund_double. fold e c.
  destruct (gt_double prize 0); [|now left].
  destruct (gt_double c (user_balance f + e)); [right; left; now repeat split|].
  destruct (ge_double e c); [right; right; left; now repeat split|].
  destruct (gt_double e 0); [right; right; right; left|right; right; right; right];
    now repeat split.
Qed.

(** C1 (amended). For a positive prize whose funding succeeds, the cost is
    the double [prize / 4], it is within the rounded sum of the member's
    balance and the eligible group balance, and exactly one of three outcomes
    holds, chosen by the tests of lines 61 and 64: the group pays in full
    (its balance becomes the double [group.balance - prizeCost], the member's
    is untouched), the group pays a part and the member the remainder (the
    group's balance becomes 0, the member's becomes the double
    [user.balance - (prizeCost - group.balance)]), or the member pays in full
    (the group's balance is untouched, the member's becomes the double
    [user.balance - prizeCost]).  The group pays only from an eligible
    balance, unless the cost has been rounded to zero. *)
Theorem fund_double_allocation (prize : float) (f f' : Funds) :
  gt_double prize 0 = true ->
  fund_double prize f = (inr tt, f') ->
  let e := groupBalance_double f in
  let c := (prize / 4)%float in
  gt_double c (user_balance f + e) = false
  /\ ((group_pays_in_full c e f f'
       /\ ~ group_and_member_pay c e f f' /\ ~ member_pays_in_full c e f f')
      \/ (~ group_pays_in_full c e f f'
          /\ group_and_member_pay c e f f' /\ ~ member_pays_in_full c e f f')
      \/ (~ group_pays_in_full c e f f'
          /\ ~ group_and_member_pay c e f f' /\ member_pays_in_full c e f f')).
Proof.
  intros P F e c. subst e c.
  unfold group_pays_in_full, group_and_member_pay, member_pays_in_full.
  destruct (fund_double_cases prize f)
    as [[N _]|[(_ & _ & T)|[(_ & A & B & E)|[(_ & A & B & C & E)|(_ & A & B & C & E)]]]].
  - congruence.
  - rewrite T in F. discriminate F.
  - rewrite E in F. injection F as <-. split; [exact A|]. left.
    split; [|split; intros (K & _); congruence].
    split; [exact B|]. split; [|reflexivity].
    destruct (groupBalance_double_cases f) as [[G _]|[G _]]; [now left|right].
    apply quarter_zero; [exact P|]. now rewrite G in B.
  - rewrite E in F. injection F as <-. split; [exact A|]. right; left.
    split; [intros (K & _); congruence|]. split; [|intros (_ & K & _); congruence].
    split; [exact B|]. split; [exact C|]. split; [|reflexivity].
    now apply groupBalance_double_pos.
  - rewrite E in F. injection F as <-. split; [exact A|]. right; right.
    split; [intros (K & _); congruence|]. split; [intros (_ & K & _); congruence|].
    now repeat split.
Qed.

Lemma fund_double_allocation_witness :
  let f := mkFunds "alice" 1 "alice" 10 in
  gt_double 8 0 = true
  /\ fund_double 8 f = (inr tt, mkFunds "alice" 0 "alice" 9)
  /\ group_and_member_pay (8 / 4) (groupBalance_double f) f (mkFunds "alice" 0 "alice" 9).
Proof.
  intros f.
  assert (P : gt_double 8 0 = true) by reflexivity.
  assert (F : fund_double 8 f = (inr tt, mkFunds "alice" 0 "alice" 9)) by reflexivity.
  split; [exact P|]. split; [exact F|].
  destruct (fund_double_allocation 8 f _ P F) as [_ [(K & _)|[(_ & K & _)|(_ & _ & K)]]].
  - destruct K as (K & _). discriminate K.
  - exact K.
  - destruct K as (_ & K & _). discriminate K.
Defined.

(** C1 as stated fails on doubles.  A member who does not lead the group has
    10.1 and funds a prize of 0.4: the cost is the double 0.1, the member is
    left with the double 10, so what was drawn is not the cost, neither as
    the exact difference of the two balances nor as their difference in
    double arithmetic.  A leader whose group has 0.1 funds a prize of 4: the
    group gives its 0.1, the member the double 1 - 0.1, and the two amounts
    do not add up to the cost 1. *)
Lemma fund_double_contributions_do_not_add_up :
  let f := mkFunds "zoe" 0 "bob" 10.1 in
  let f' := mkFunds "zoe" 0 "bob" 10 in
  let g := mkFunds "alice" 0.1 "alice" 5 in
  let g' := mkFunds "alice" 0 "alice" (5 - (1 - 0.1)) in
  (gt_double 0.4 0 = true
   /\ fund_double 0.4 f = (inr tt, f')
   /\ ~ groupContribution f f' + memberContribution f f' == exact_value (0.4 / 4)
   /\ ((group_balance f - group_balance f') + (user_balance f - user_balance f')
       =? 0.4 / 4)%float = false)
  /\ (gt_double 4 0 = true
      /\ fund_double 4 g = (inr tt, g')
      /\ groupContribution g g' == exact_value 0.1
      /\ ~ exact_value 0.1 + exact_value (1 - 0.1) == exact_value (4 / 4)).
Proof.
  intros f f' g g'. split.
  - split; [reflexivity|]. split; [reflexivity|]. split; [|reflexivity].
    intros H. vm_compute in H. discriminate H.
  - split; [reflexivity|]. split; [reflexivity|]. split; [vm_compute; reflexivity|].
    intros H. vm_compute in H. discriminate H.
Qed.

(** C6 (amended). For a positive prize, when the cost [prize / 4] is above
    the sum of the member's balance and the eligible group balance as line 57
    computes it, in double arithmetic, funding throws NotAuthorized and
    leaves both balances as they were. *)
Theorem fund_double_cantAfford (prize : float) (f : Funds) :
  gt_double prize 0 = true ->
  gt_double (prize / 4) (user_balance f + groupBalance_double f) = true ->
  fund_double prize f = (inl (NotAuthorized "cantAfford"), f).
Proof.
  intros P C. unfold fund_double. now rewrite P, C.
Qed.

Lemma fund_double_cantAfford_witness :
  let f := mkFunds "alice" 0 "bob" 1 in
  gt_double 20 0 = true
  /\ gt_double (20 / 4) (user_balance f + groupBalance_double f) = true
  /\ fund_double 20 f = (inl (NotAuthorized "cantAfford"), f).
Proof.
  intros f.
  assert (P : gt_double 20 0 = true) by reflexivity.
  assert (C : gt_double (20 / 4) (user_balance f + groupBalance_double f) = true)
    by reflexivity.
  split; [exact P|]. split; [exact C|].
  exact (fund_double_cantAfford 20 f P C).
Defined.

(** C6 as stated fails on doubles.  A leader has 0.1, the group 0.2, and the
    prize is 1.2000000000000002: the cost, exactly, is above the two balances
    added exactly, but their sum is rounded up to the cost on line 57, so
    funding goes through; the group is emptied and the member is left with a
    negative balance. *)
Lemma fund_double_funds_beyond_means :
  let f := mkFunds "alice" 0.2 "alice" 0.1 in
  let prize := 1.2000000000000002%float in
  gt_double prize 0 = true
  /\ exact_value (user_balance f) + exact_value (groupBalance_double f) < exact_value (prize / 4)
  /\ exists f', fund_double prize f = (inr tt, f')
                /\ group_balance f' = 0%float
                /\ exact_value (user_balance f') < 0.
Proof.
  intros f prize. split; [reflexivity|]. split; [vm_compute; reflexivity|].
  eexists. split; [reflexivity|]. split; [reflexivity|]. vm_compute. reflexivity.
Qed.



(** The funding scenarios of the testable properties, run on the code:
    group balance 0, member balance 10, prize 8; group balance 1 with the
    member leading the group, member balance 0, prize 8; group balance 0,
    member balance 1, prize 20. *)
Example scenario_A :
  fund_double 8 (mkFunds "zoe" 0 "alice" 10) = (inr tt, mkFunds "zoe" 0 "alice" 8).
Proof. reflexivity. Qed.

Example scenario_B :
  fund_double 8 (mkFunds "alice" 1 "alice" 0)
  = (inl (NotAuthorized "cantAfford"), mkFunds "alice" 1 "alice" 0).
Proof. reflexivity. Qed.

Example scenario_C :
  fund_double 20 (mkFunds "alice" 0 "bob" 1)
  = (inl (NotAuthorized "cantAfford"), mkFunds "alice" 0 "bob" 1).
Proof. reflexivity. Qed.

(** A prize that is absent (NaN), zero or negative moves nothing. *)
Lemma fund_double_no_prize (prize : float) (f : Funds) :
  gt_double prize 0 = false -> fund_double prize f = (inr tt, f).
Proof. intros P. unfold fund_double. now rewrite P. Qed.
(** ** The handler of createChallenge *)

Lemma authorize_spec (groupId : string) (prize : option Q) (m : Mem) :
  (authorized (m_group m) (m_user m) groupId prize = true
   /\ authorize groupId prize m = (inr tt, m))
  \/ (authorized (m_group m) (m_user m) groupId prize = false
      /\ exists msg, authorize groupId prize m = (inl (NotAuthorized msg), m)).
Proof.
  unfold authorized, authorize, bind, gets, throw, ret.
  destruct (leaderOnly_challenges (m_group m)
            && negb (String.eqb (g_leader (m_group m)) (u_id (m_user m)))); simpl.
  - right. split; [reflexivity|]. now eexists.
  - destruct (String.eqb groupId "habitrpg" && js_lt prize 1); simpl.
    + right. split; [reflexivity|]. now eexists.
    + left. now split.
Qed.

Lemma fund_unaffordable (p : Q) (m : Mem) :
  Qgtb p 0 && Qgtb (prizeCost p) (u_balance (m_user m) + groupBalance (m_group m) (m_user m)) = true ->
  fund (Some p) m = (inl (NotAuthorized "cantAfford"), m).
Proof.
  intros H. apply andb_true_iff in H as [H1 H2].
  unfold fund. rewrite H1. unfold bind, gets, throw. now rewrite H2.
Qed.

Lemma fund_affordable (prize : option Q) (m : Mem) :
  affordable (m_group m) (m_user m) prize = true ->
  exists m', fund prize m = (inr tt, m').
Proof.
  unfold affordable. destruct prize as [p|]; [|intros _; now eexists].
  intros H. destruct (js_gt (Some p) 0) eqn:J.
  - simpl in J. rewrite J in H. simpl in H. apply negb_true_iff in H.
    apply Qgtb_true in J. apply Qgtb_false in H.
    destruct (fund_cases p m J) as [[A _]|[(_ & _ & F)|[(_ & _ & _ & F)|(_ & _ & F)]]];
      [lra| | |]; rewrite F; now eexists.
  - rewrite (fund_no_prize _ m J). now eexists.
Qed.

(** Lines 75-82: the construction always stops at the call of [map], with
    the group counted, the body rewritten and the challenge built. *)
Lemma construct_throws (m : Mem) :
  construct m
  = (inl (TypeError "object is not a function"),
     mkMem (m_user m)
       (set_g_challengeCount (g_challengeCount (m_group m) + 1) (m_group m))
       (set_b_official (u_admin (m_user m) && b_official (m_body m))
          (set_b_leader (Some (u_id (m_user m))) (m_body m)))
       (Some (mkChallenge (m_uuid m (m_next m)) (b_name (m_body m)) (b_group (m_body m))
                (u_id (m_user m))
                (match b_prize (m_body m) with Some p => p | None => 0 end)
                (u_admin (m_user m) && b_official (m_body m)) (m_now m) emptyTasksOrder))
       (m_db m) (m_uuid m) (S (m_next m)) (m_now m)).
Proof. reflexivity. Qed.

(** A request that passes validation, authorization and funding reaches
    line 82 and stops there. *)
Lemma createChallenge_constructs (req : Request) (user : User) (s : Store) (g : Group) :
  validationErrors req = None ->
  Group_getGroup s user (b_group (body req)) = Some g ->
  authorized g user (b_group (body req)) (b_prize (body req)) = true ->
  affordable g user (b_prize (body req)) = true ->
  exists gb ub,
    fund (b_prize (body req)) (mkMem user g (body req) None s (uuid req) 0 (now req))
    = (inr tt, mkMem (set_u_balance ub user) (set_g_balance gb g) (body req) None s
                 (uuid req) 0 (now req))
    /\ createChallenge req user s
       = mkCreated (next (TypeError "object is not a function"))
           (set_u_balance ub user)
           (Some (set_g_challengeCount (g_challengeCount g + 1) (set_g_balance gb g)))
           (set_b_official (u_admin user && b_official (body req))
              (set_b_leader (Some (u_id user)) (body req)))
           (Some (mkChallenge (uuid req 0) (b_name (body req)) (b_group (body req))
                    (u_id user)
                    (match b_prize (body req) with Some p => p | None => 0 end)
                    (u_admin user && b_official (body req)) (now req) emptyTasksOrder))
           s.
Proof.
  intros V G A F.
  unfold createChallenge. rewrite V, G.
  set (m0 := mkMem user g (body req) None s (uuid req) 0 (now req)).
  destruct (authorize_spec (b_group (body req)) (b_prize (body req)) m0) as [[_ A1]|[A1 _]];
    [|simpl in A1; congruence].
  destruct (fund_affordable (b_prize (body req)) m0 F) as [m1 F1].
  destruct (fund_frame _ _ _ _ F1) as (gb & ub & E & _ & _).
  exists gb, ub.
  unfold createChallenge_chain, bind.
  rewrite A1, F1, construct_throws, E. simpl. split; reflexivity.
Qed.

Lemma createChallenge_unauthorized (req : Request) (user : User) (s : Store) (g : Group) :
  validationErrors req = None ->
  Group_getGroup s user (b_group (body req)) = Some g ->
  authorized g user (b_group (body req)) (b_prize (body req)) = false ->
  exists msg,
    createChallenge req user s
    = mkCreated (next (NotAuthorized msg)) user (Some g) (body req) None s.
Proof.
  intros V G A.
  unfold createChallenge. rewrite V, G.
  set (m0 := mkMem user g (body req) None s (uuid req) 0 (now req)).
  destruct (authorize_spec (b_group (body req)) (b_prize (body req)) m0) as [[A1 _]|[_ [msg A1]]];
    [simpl in A1; congruence|].
  exists msg. unfold createChallenge_chain, bind. rewrite A1. reflexivity.
Qed.

Lemma createChallenge_unaffordable (req : Request) (user : User) (s : Store) (g : Group) :
  validationErrors req = None ->
  Group_getGroup s user (b_group (body req)) = Some g ->
  authorized g user (b_group (body req)) (b_prize (body req)) = true ->
  affordable g user (b_prize (body req)) = false ->
  createChallenge req user s
  = mkCreated (next (NotAuthorized "cantAfford")) user (Some g) (body req) None s.
Proof.
  intros V G A F.
  unfold createChallenge. rewrite V, G.
  set (m0 := mkMem user g (body req) None s (uuid req) 0 (now req)).
  destruct (authorize_spec (b_group (body req)) (b_prize (body req)) m0) as [[_ A1]|[A1 _]];
    [|simpl in A1; congruence].
  unfold affordable in F. destruct (b_prize (body req)) as [p|]; [|discriminate].
  apply negb_false_iff in F.
  unfold createChallenge_chain, bind.
  rewrite A1, (fund_unaffordable p m0 F). reflexivity.
Qed.

(** The challenge of line 80 exists only on the path through the three gates. *)
Lemma createChallenge_challenge (req : Request) (user : User) (s : Store) (c : Challenge) :
  cr_challenge (createChallenge req user s) = Some c ->
  exists g,
    validationErrors req = None
    /\ Group_getGroup s user (b_group (body req)) = Some g
    /\ authorized g user (b_group (body req)) (b_prize (body req)) = true
    /\ affordable g user (b_prize (body req)) = true.
Proof.
  intros H.
  destruct (validationErrors req) as [errs|] eqn:V.
  { unfold createChallenge in H. rewrite V in H. discriminate. }
  destruct (Group_getGroup s user (b_group (body req))) as [g|] eqn:G.
  2:{ unfold createChallenge in H. rewrite V, G in H. discriminate. }
  destruct (authorized g user (b_group (body req)) (b_prize (body req))) eqn:A.
  2:{ destruct (createChallenge_unauthorized req user s g V G A) as [msg E].
      rewrite E in H. discriminate. }
  destruct (affordable g user (b_prize (body req))) eqn:F.
  2:{ rewrite (createChallenge_unaffordable req user s g V G A F) in H. discriminate. }
  exists g. repeat split; assumption.
Qed.

(** The handler never answers the caller with [res.respond], and writes
    nothing. *)
Lemma createChallenge_no_respond (req : Request) (user : User) (s : Store) :
  (exists e, cr_response (createChallenge req user s) = next e)
  /\ cr_store (createChallenge req user s) = s.
Proof.
  destruct (validationErrors req) as [errs|] eqn:V.
  { unfold createChallenge. rewrite V. split; [now eexists|reflexivity]. }
  destruct (Group_getGroup s user (b_group (body req))) as [g|] eqn:G.
  2:{ unfold createChallenge. rewrite V, G. split; [now eexists|reflexivity]. }
  destruct (authorized g user (b_group (body req)) (b_prize (body req))) eqn:A.
  2:{ destruct (createChallenge_unauthorized req user s g V G A) as [msg E].
      rewrite E. split; [now eexists|reflexivity]. }
  destruct (affordable g user (b_prize (body req))) eqn:F.
  2:{ rewrite (createChallenge_unaffordable req user s g V G A F).
      split; [now eexists|reflexivity]. }
  destruct (createChallenge_constructs req user s g V G A F) as (gb & ub & _ & E).
  rewrite E. split; [now eexists|reflexivity].
Qed.

(** C3 (what the code does). A request that passes validation, authorization
    and funding is answered with the TypeError of line 82: [tasks.map] is
    handed the array [tasks] where it expects the function.  No seed task is
    built, the task-order lists of the challenge stay empty, nothing is
    written, and no request at all is answered with the created challenge. *)
Theorem createChallenge_stops_at_map (req : Request) (user : User) (s : Store) (g : Group) :
  validationErrors req = None ->
  Group_getGroup s user (b_group (body req)) = Some g ->
  authorized g user (b_group (body req)) (b_prize (body req)) = true ->
  affordable g user (b_prize (body req)) = true ->
  cr_response (createChallenge req user s) = next (TypeError "object is not a function")
  /\ cr_store (createChallenge req user s) = s
  /\ (exists c, cr_challenge (createChallenge req user s) = Some c
                /\ c_tasksOrder c = emptyTasksOrder)
  /\ (forall req' user' s' status payload,
        cr_response (createChallenge req' user' s') <> respond status payload).
Proof.
  intros V G A F.
  destruct (createChallenge_constructs req user s g V G A F) as (gb & ub & _ & E).
  rewrite E. simpl. repeat split.
  - eexists. split; reflexivity.
  - intros req' user' s' status payload H.
    destruct (createChallenge_no_respond req' user' s') as [[e R] _]. congruence.
Qed.

Lemma createChallenge_stops_at_map_witness :
  b_tasks (body (sample_request 8 false)) = Some [habit_spec]
  /\ cr_response (createChallenge (sample_request 8 false) alice sample_store)
     = next (TypeError "object is not a function")
  /\ s_tasks (cr_store (createChallenge (sample_request 8 false) alice sample_store))
     = s_tasks sample_store.
Proof.
  destruct (createChallenge_stops_at_map (sample_request 8 false) alice sample_store guild
              eq_refl eq_refl eq_refl eq_refl) as (R & S & _).
  split; [reflexivity|]. split; [exact R|]. now rewrite S.
Defined.

(** C10. The challenge built by the creation handler is official only if the
    creating member is an administrator: its flag is the conjunction of the
    member's admin flag and the requested value, so it is false for every
    member who is not an administrator, whatever was requested. *)
Theorem createChallenge_official (req : Request) (user : User) (s : Store) (c : Challenge) :
  cr_challenge (createChallenge req user s) = Some c ->
  c_official c = u_admin user && b_official (body req)
  /\ (c_official c = true -> u_admin user = true)
  /\ (u_admin user = false -> c_official c = false).
Proof.
  intros H.
  destruct (createChallenge_challenge req user s c H) as (g & V & G & A & F).
  destruct (createChallenge_constructs req user s g V G A F) as (gb & ub & _ & E).
  rewrite E in H. simpl in H. injection H as <-. simpl.
  split; [reflexivity|]. split.
  - intros O. now apply andb_true_iff in O.
  - intros ->. reflexivity.
Qed.

Lemma createChallenge_official_witness :
  (exists c, cr_challenge (createChallenge (sample_request 8 true) alice sample_store) = Some c
             /\ c_official c = false)
  /\ (exists c, cr_challenge (createChallenge (sample_request 8 true) root sample_store) = Some c
                /\ c_official c = true).
Proof.
  split.
  - exists (mkChallenge "uuid-0" "Flossing" "guild-1" "alice" 8 false 1000 emptyTasksOrder).
    assert (H : cr_challenge (createChallenge (sample_request 8 true) alice sample_store)
                = Some (mkChallenge "uuid-0" "Flossing" "guild-1" "alice" 8 false 1000
                          emptyTasksOrder)) by reflexivity.
    split; [exact H|].
    destruct (createChallenge_official _ _ _ _ H) as (_ & _ & N). now apply N.
  - exists (mkChallenge "uuid-0" "Flossing" "guild-1" "root" 8 true 1000 emptyTasksOrder).
    assert (H : cr_challenge (createChallenge (sample_request 8 true) root sample_store)
                = Some (mkChallenge "uuid-0" "Flossing" "guild-1" "root" 8 true 1000
                          emptyTasksOrder)) by reflexivity.
    split; [exact H|].
    destruct (createChallenge_official _ _ _ _ H) as (E & _ & _). rewrite E. reflexivity.
Defined.

(** ** Lists of documents *)

Lemma find_map_same {A : Type} (p : A -> bool) (f : A -> A) (l : list A) :
  (forall x, p (f x) = p x) ->
  find p (map f l) = option_map f (find p l).
Proof.
  intros Hp. induction l as [|x l IH]; simpl; [reflexivity|].
  rewrite Hp. destruct (p x); [reflexivity|exact IH].
Qed.

Lemma find_update_first_same {A : Type} (p : A -> bool) (f : A -> A) (l : list A) :
  (forall x, p (f x) = p x) ->
  find p (update_first p f l) = option_map f (find p l).
Proof.
  intros Hp. induction l as [|x l IH]; simpl; [reflexivity|].
  destruct (p x) eqn:E; simpl.
  - now rewrite Hp, E.
  - now rewrite E.
Qed.

Lemma find_update_first_other {A : Type} (p q : A -> bool) (f : A -> A) (l : list A) :
  (forall x, p (f x) = p x) ->
  (forall x, q x = true -> p x = false) ->
  find p (update_first q f l) = find p l.
Proof.
  intros Hp Hq. induction l as [|x l IH]; simpl; [reflexivity|].
  destruct (q x) eqn:E; simpl.
  - now rewrite Hp, (Hq x E).
  - destruct (p x); [reflexivity|exact IH].
Qed.

(** ** Requests settling in any order *)

Lemma allSettled_cons (op : Op) (ops : list Op) (s : Store) :
  Q_allSettled (op :: ops) s = Q_allSettled ops (exec op s).
Proof. reflexivity. Qed.

(** A property that every request keeps holds at the end. *)
Lemma allSettled_preserved (I : Store -> Prop) (ops : list Op) :
  (forall op, In op ops -> forall s, I s -> I (exec op s)) ->
  forall s, I s -> I (Q_allSettled ops s).
Proof.
  induction ops as [|op ops IH]; intros K s Hs; [exact Hs|].
  rewrite allSettled_cons. apply IH.
  - intros op' Hin. apply K. now right.
  - apply K; [now left|exact Hs].
Qed.

(** A property that one request brings about and every request keeps holds
    at the end, whatever the order. *)
Lemma allSettled_established (I P : Store -> Prop) (ops : list Op) :
  (forall op, In op ops -> forall s, I s -> I (exec op s)) ->
  (forall op, In op ops -> forall s, I s -> P s -> P (exec op s)) ->
  (exists op, In op ops /\ forall s, I s -> P (exec op s)) ->
  forall s, I s -> P (Q_allSettled ops s).
Proof.
  induction ops as [|op ops IH]; intros KI KP [op0 [Hin E]] s Hs; [contradiction|].
  rewrite allSettled_cons. destruct Hin as [->|Hin].
  - assert (B : I (exec op0 s) /\ P (exec op0 s)).
    { split; [apply KI; [now left|exact Hs]|apply E; exact Hs]. }
    apply (allSettled_preserved (fun s => I s /\ P s)); [|exact B].
    intros op' Hin' s' [Hi Hp]. split.
    + apply KI; [now right|exact Hi].
    + apply KP; [now right|exact Hi|exact Hp].
  - apply IH.
    + intros op' Hin'. apply KI. now right.
    + intros op' Hin'. apply KP. now right.
    + exists op0. now split.
    + apply KI; [now left|exact Hs].
Qed.

(** The requests [_closeChal] issues. *)
Lemma closeChal_ops (saved : bool) (c : Challenge) (b : Broken) (op : Op) :
  In op (fst (_closeChal saved c b)) ->
  op = Challenge_remove (c_id c)
  \/ op = Task_remove (c_id c)
  \/ op = User_update_tags (c_id c)
  \/ op = Task_update (c_id c) (broken b) (option_map u_name (winner b))
  \/ op = Group_update (c_group c) (-1)
  \/ op = User_update_balance (c_leader c) (c_prize c / 4)
  \/ exists w, winner b = Some w
               /\ op = winner_save saved
                         (set_u_balance (u_balance w + c_prize c / 4)
                            (set_u_achievements_challenges
                               (u_achievements_challenges w ++ [c_name c]) w))
                         (c_name c).
Proof.
  unfold _closeChal.
  destruct (negb (String.eqb (c_group c) "habitrpg")
            && match broken b with
               | Some r => String.eqb r "CHALLENGE_DELETED"
               | None => false
               end);
    destruct (winner b) as [w|]; simpl; intros H;
    repeat (destruct H as [<-|H]; [tauto|]); try contradiction;
    try (destruct H as [<-|H]; [|contradiction]);
    repeat (try (left; reflexivity); right); eauto.
Qed.

Lemma closeChal_issues (saved : bool) (c : Challenge) (b : Broken) :
  let ops := fst (_closeChal saved c b) in
  In (Task_remove (c_id c)) ops
  /\ In (Task_update (c_id c) (broken b) (option_map u_name (winner b))) ops
  /\ In (Group_update (c_group c) (-1)) ops.
Proof.
  unfold _closeChal.
  destruct (negb (String.eqb (c_group c) "habitrpg")
            && match broken b with
               | Some r => String.eqb r "CHALLENGE_DELETED"
               | None => false
               end);
    destruct (winner b) as [w|]; simpl; tauto.
Qed.

(** ** Teardown: the tasks *)

Lemma breaks_same (cid : string) (b : Broken) (t : Task) : same_task t (breaks cid b t).
Proof. unfold breaks, same_task. destruct (bound_to cid t); simpl; tauto. Qed.

Lemma same_task_bound (cid : string) (t t' : Task) :
  same_task t t' -> bound_to cid t' = bound_to cid t /\ unowned t' = unowned t.
Proof.
  unfold same_task, bound_to, unowned. intros (_ & _ & _ & U & C). now rewrite U, C.
Qed.

Lemma same_task_trans (t1 t2 t3 : Task) :
  same_task t1 t2 -> same_task t2 t3 -> same_task t1 t3.
Proof.
  unfold same_task. intros (A1 & A2 & A3 & A4 & A5) (B1 & B2 & B3 & B4 & B5).
  repeat split; congruence.
Qed.

(** What one request of the teardown does to the tasks. *)
Lemma closeChal_tasks_step (saved : bool) (c : Challenge) (b : Broken) (op : Op) (s : Store) :
  In op (fst (_closeChal saved c b)) ->
  s_tasks (exec op s) = s_tasks s
  \/ (op = Task_remove (c_id c)
      /\ s_tasks (exec op s) = filter (keeps (c_id c)) (s_tasks s))
  \/ (op = Task_update (c_id c) (broken b) (option_map u_name (winner b))
      /\ s_tasks (exec op s) = map (breaks (c_id c) b) (s_tasks s)).
Proof.
  intros H.
  destruct (closeChal_ops saved c b op H)
    as [->|[->|[->|[->|[->|[->|(w & _ & ->)]]]]]]; simpl; auto.
  destruct saved; auto.
Qed.

(** C9. Whatever the order in which the requests of a teardown settle, no
    unowned task bound to the challenge is left, and every member-owned task
    is still there: bound to the challenge, it is the same task annotated with
    the reason of the outcome and the display name of the winner, if any;
    not bound to it, it is untouched. *)
Theorem teardown_tasks (saved : bool) (c : Challenge) (b : Broken) (s s' : Store) :
  settles (fst (_closeChal saved c b)) s s' ->
  (forall t, In t (s_tasks s') -> bound_to (c_id c) t = true -> unowned t = false)
  /\ (forall t, In t (s_tasks s) -> unowned t = false ->
      (bound_to (c_id c) t = true ->
       exists t', In t' (s_tasks s') /\ same_task t t'
                  /\ tc_broken (t_challenge t') = broken b
                  /\ tc_winner (t_challenge t') = option_map u_name (winner b))
      /\ (bound_to (c_id c) t = false -> In t (s_tasks s'))).
Proof.
  intros (order & Perm & ->).
  assert (Sub : forall op, In op order -> In op (fst (_closeChal saved c b))).
  { intros op Hin. apply (Permutation_in op (Permutation_sym Perm) Hin). }
  destruct (closeChal_issues saved c b) as (InRemove & InUpdate & _).
  split; [|intros t0 Hin0 Hown; split; intros Hb].
  - (* the seed tasks are gone *)
    apply (allSettled_established (fun _ => True)
             (fun s => forall t, In t (s_tasks s) -> bound_to (c_id c) t = true -> unowned t = false));
      [tauto| | |exact I].
    + intros op Hin s0 _ P t Ht Hb.
      destruct (closeChal_tasks_step saved c b op s0 (Sub op Hin)) as [E|[[_ E]|[_ E]]];
        rewrite E in Ht.
      * now apply P.
      * apply filter_In in Ht. now apply P.
      * apply in_map_iff in Ht as (t1 & <- & Ht1).
        destruct (same_task_bound (c_id c) _ _ (breaks_same (c_id c) b t1)) as [B U].
        rewrite U. apply P; [exact Ht1|]. now rewrite <- B.
    + exists (Task_remove (c_id c)). split.
      * apply (Permutation_in _ Perm InRemove).
      * intros s0 _ t Ht Hb. simpl in Ht. apply filter_In in Ht as [_ K].
        rewrite Hb in K. simpl in K. now apply negb_true_iff in K.
  - (* a member-owned task of the challenge is kept and annotated *)
    apply (allSettled_established
             (fun s => exists t', In t' (s_tasks s) /\ same_task t0 t')
             (fun s => exists t', In t' (s_tasks s) /\ same_task t0 t'
                                  /\ tc_broken (t_challenge t') = broken b
                                  /\ tc_winner (t_challenge t') = option_map u_name (winner b))).
    + intros op Hin s0 (t' & Ht' & St).
      destruct (same_task_bound (c_id c) _ _ St) as [B U].
      destruct (closeChal_tasks_step saved c b op s0 (Sub op Hin)) as [E|[[_ E]|[_ E]]];
        rewrite E.
      * now exists t'.
      * exists t'. split; [|exact St]. apply filter_In. split; [exact Ht'|].
        unfold keeps. now rewrite U, Hown, andb_false_r.
      * exists (breaks (c_id c) b t'). split; [now apply in_map|].
        eapply same_task_trans; [exact St|apply breaks_same].
    + intros op Hin s0 _ (t' & Ht' & St & Br & Wi).
      destruct (same_task_bound (c_id c) _ _ St) as [B U].
      destruct (closeChal_tasks_step saved c b op s0 (Sub op Hin)) as [E|[[_ E]|[_ E]]];
        rewrite E.
      * now exists t'.
      * exists t'. split; [|split; [exact St|now split]]. apply filter_In. split; [exact Ht'|].
        unfold keeps. now rewrite U, Hown, andb_false_r.
      * exists (breaks (c_id c) b t'). split; [now apply in_map|].
        split; [eapply same_task_trans; [exact St|apply breaks_same]|].
        unfold breaks. rewrite B, Hb. simpl. now split.
    + exists (Task_update (c_id c) (broken b) (option_map u_name (winner b))). split.
      * apply (Permutation_in _ Perm InUpdate).
      * intros s0 (t' & Ht' & St).
        destruct (same_task_bound (c_id c) _ _ St) as [B U].
        exists (breaks (c_id c) b t'). split; [simpl; now apply (in_map (breaks (c_id c) b))|].
        split; [eapply same_task_trans; [exact St|apply breaks_same]|].
        unfold breaks. rewrite B, Hb. simpl. now split.
    + exists t0. split; [exact Hin0|]. unfold same_task. tauto.
  - (* a member-owned task of something else is untouched *)
    apply (allSettled_preserved (fun s => In t0 (s_tasks s))); [|exact Hin0].
    intros op Hin s0 Ht.
    destruct (closeChal_tasks_step saved c b op s0 (Sub op Hin)) as [E|[[_ E]|[_ E]]];
      rewrite E.
    + exact Ht.
    + apply filter_In. split; [exact Ht|]. unfold keeps. now rewrite Hb.
    + apply in_map_iff. exists t0. split; [|exact Ht]. unfold breaks. now rewrite Hb.
Qed.

Lemma settles_issue_order (ops : list Op) (s : Store) : settles ops s (Q_allSettled ops s).
Proof. exists ops. split; [apply Permutation_refl|reflexivity]. Qed.

Lemma teardown_tasks_witness :
  let ops := fst (_closeChal true chal1 (mkBroken (Some "CHALLENGE_DELETED"%string) None)) in
  let s' := Q_allSettled ops sample_store in
  settles ops sample_store s'
  /\ ~ In seed1 (s_tasks s')
  /\ In other1 (s_tasks s')
  /\ exists t', In t' (s_tasks s') /\ same_task copy1 t'
                /\ tc_broken (t_challenge t') = Some "CHALLENGE_DELETED"%string.
Proof.
  intros ops s'.
  assert (S : settles ops sample_store s') by apply settles_issue_order.
  destruct (teardown_tasks _ _ _ _ _ S) as [Gone Kept].
  split; [exact S|]. split; [|split].
  - intros H. specialize (Gone seed1 H eq_refl). discriminate.
  - apply (Kept other1); [simpl; tauto|reflexivity|reflexivity].
  - destruct (Kept copy1) as [K _]; [simpl; tauto|reflexivity|].
    destruct (K eq_refl) as (t' & A & B & C & _).
    exists t'. split; [exact A|]. split; [exact B|exact C].
Defined.

(** ** Teardown: the groups *)




(** ** Teardown: mail and push *)

Lemma allSettled_outbox (ops : list Op) (s : Store) :
  s_outbox (Q_allSettled ops s)
  = s_outbox s ++ flat_map notify (flat_map fulfilled_saves ops).
Proof.
  revert s. induction ops as [|op ops IH]; intros s.
  - simpl. now rewrite app_nil_r.
  - rewrite allSettled_cons, IH. simpl. rewrite flat_map_app, app_assoc. f_equal.
    destruct op; simpl; try (now rewrite app_nil_r).
    destruct fulfilled; simpl; now rewrite app_nil_r.
Qed.

Lemma closeChal_fulfilled_saves (saved : bool) (c : Challenge) (b : Broken) :
  flat_map fulfilled_saves (fst (_closeChal saved c b))
  = match snd (_closeChal saved c b) with
    | Some w => if saved then [(w, c_name c)] else []
    | None => []
    end.
Proof.
  unfold _closeChal.
  destruct (negb (String.eqb (c_group c) "habitrpg")
            && match broken b with
               | Some r => String.eqb r "CHALLENGE_DELETED"
               | None => false
               end);
    destruct (winner b); destruct saved; reflexivity.
Qed.

Lemma closeChal_outbox (saved : bool) (c : Challenge) (b : Broken) (s s' : Store) :
  settles (fst (_closeChal saved c b)) s s' ->
  s_outbox s'
  = s_outbox s
    ++ match snd (_closeChal saved c b) with
       | Some w => if saved then won_notifications w (c_name c) else []
       | None => []
       end.
Proof.
  intros (order & Perm & ->).
  rewrite allSettled_outbox. f_equal.
  pose proof (Permutation_flat_map fulfilled_saves Perm) as P.
  rewrite closeChal_fulfilled_saves in P.
  destruct (snd (_closeChal saved c b)) as [w|]; [destruct saved|].
  - apply Permutation_length_1_inv in P. rewrite P. simpl. now rewrite app_nil_r.
  - apply Permutation_nil in P. now rewrite P.
  - apply Permutation_nil in P. now rewrite P.
Qed.

(** ** Teardown: the members *)

Lemma option_map_same {A : Type} (f : A -> A) (o : option A) :
  (forall x, f x = x) -> option_map f o = o.
Proof. intros H. destruct o; simpl; [now rewrite H|reflexivity]. Qed.

Lemma user_effect_id (uid : string) (op : Op) (u : User) :
  u_id (user_effect uid op u) = u_id u.
Proof.
  destruct op; simpl; try reflexivity.
  - destruct (existsb (String.eqb cid) (u_challenges u) && has_tag cid u); reflexivity.
  - destruct (String.eqb uid0 uid); reflexivity.
  - destruct fulfilled; [|reflexivity]. destruct (String.eqb (u_id w) uid); reflexivity.
Qed.

(** One request and the stored document of the member [uid]. *)
Lemma user_step (uid : string) (op : Op) (s : Store) :
  User_findOne (exec op s) uid = option_map (user_effect uid op) (User_findOne s uid).
Proof.
  unfold User_findOne.
  destruct op; simpl; try (symmetry; now apply option_map_same).
  - rewrite find_map_same; [reflexivity|].
    intros x. destruct (existsb (String.eqb cid) (u_challenges x) && has_tag cid x); reflexivity.
  - destruct (String.eqb uid0 uid) eqn:E.
    + apply String.eqb_eq in E. subst uid0.
      rewrite find_update_first_same by reflexivity.
      destruct (find _ _); simpl; [rewrite String.eqb_refl|]; reflexivity.
    + rewrite find_update_first_other.
      * symmetry. apply option_map_same. intros x. simpl. now rewrite E.
      * reflexivity.
      * intros x Hx. apply String.eqb_eq in Hx. now rewrite Hx.
  - destruct fulfilled; simpl; [|symmetry; now apply option_map_same].
    destruct (String.eqb (u_id w) uid) eqn:E.
    + rewrite (proj1 (String.eqb_eq _ _) E).
      rewrite find_update_first_same by reflexivity.
      destruct (find _ _); simpl; [rewrite E|]; reflexivity.
    + rewrite find_update_first_other.
      * symmetry. apply option_map_same. intros x. simpl. now rewrite E.
      * reflexivity.
      * intros x Hx. apply String.eqb_eq in Hx. now rewrite Hx.
Qed.

Lemma exec_stored_balance (uid : string) (op : Op) (s : Store) :
  spares uid op = true ->
  stored_balance uid (exec op s)
  = fold_left add_balance (balance_incs uid op) (stored_balance uid s).
Proof.
  intros Sp. unfold stored_balance. rewrite user_step.
  destruct (User_findOne s uid) as [u|]; simpl.
  - destruct op; simpl; try reflexivity.
    + destruct (existsb (String.eqb cid) (u_challenges u) && has_tag cid u); reflexivity.
    + destruct (String.eqb uid0 uid); reflexivity.
    + destruct fulfilled; [|reflexivity]. simpl in Sp.
      apply negb_true_iff in Sp. now rewrite Sp.
  - destruct op; simpl; try reflexivity.
    destruct (String.eqb uid0 uid); reflexivity.
Qed.

Lemma allSettled_stored_balance (uid : string) (ops : list Op) (s : Store) :
  (forall op, In op ops -> spares uid op = true) ->
  stored_balance uid (Q_allSettled ops s)
  = fold_left add_balance (flat_map (balance_incs uid) ops) (stored_balance uid s).
Proof.
  revert s. induction ops as [|op ops IH]; intros s Sp; [reflexivity|].
  rewrite allSettled_cons, IH by (intros op' H; apply Sp; now right).
  simpl. rewrite fold_left_app. f_equal.
  apply exec_stored_balance. apply Sp. now left.
Qed.

Lemma closeChal_balance_incs (saved : bool) (c : Challenge) (b : Broken) :
  flat_map (balance_incs (c_leader c)) (fst (_closeChal saved c b))
  = if refunds c b then [c_prize c / 4] else [].
Proof.
  unfold _closeChal, refunds.
  destruct (negb (String.eqb (c_group c) "habitrpg")
            && match broken b with
               | Some r => String.eqb r "CHALLENGE_DELETED"
               | None => false
               end);
    destruct (winner b); simpl; rewrite ?String.eqb_refl; reflexivity.
Qed.

(** Lines 173-176, in any order of completion: the stored balance of the
    leader grows by the prize cost exactly when the reason is
    CHALLENGE_DELETED and the group is not habitrpg; a winner, when it is
    another member, changes nothing to it. *)
Lemma closeChal_refund (saved : bool) (c : Challenge) (b : Broken) (s s' : Store) (b0 : Q) :
  (forall w, winner b = Some w -> u_id w <> c_leader c) ->
  stored_balance (c_leader c) s = Some b0 ->
  settles (fst (_closeChal saved c b)) s s' ->
  stored_balance (c_leader c) s'
  = Some (if refunds c b then b0 + prizeCost (c_prize c) else b0).
Proof.
  intros Hw Hb (order & Perm & ->).
  rewrite allSettled_stored_balance.
  - pose proof (Permutation_flat_map (balance_incs (c_leader c)) Perm) as P.
    rewrite closeChal_balance_incs in P. rewrite Hb.
    destruct (refunds c b).
    + apply Permutation_length_1_inv in P. rewrite P. reflexivity.
    + apply Permutation_nil in P. rewrite P. reflexivity.
  - intros op Hin.
    apply (Permutation_in op (Permutation_sym Perm)) in Hin.
    destruct (closeChal_ops saved c b op Hin)
      as [->|[->|[->|[->|[->|[->|(w & W & ->)]]]]]]; try reflexivity.
    simpl. apply negb_true_iff. apply String.eqb_neq. now apply Hw.
Qed.

(** C4 (what the code does). The teardown that selectChallengeWinner
    dispatches on line 268 carries the reason CHALLENGE_DELETED together with
    the winner: in a group other than habitrpg the stored balance of the
    challenge leader is credited by the prize cost, in any order of
    completion, although the outcome has a winner. *)
Theorem teardown_refunds_leader_despite_winner
        (saved : bool) (c : Challenge) (w : User) (s s' : Store) (b0 : Q) :
  c_group c <> "habitrpg"%string ->
  u_id w <> c_leader c ->
  stored_balance (c_leader c) s = Some b0 ->
  settles (fst (_closeChal saved c (mkBroken (Some "CHALLENGE_DELETED"%string) (Some w)))) s s' ->
  stored_balance (c_leader c) s' = Some (b0 + prizeCost (c_prize c)).
Proof.
  intros Hg Hw Hb St.
  rewrite (closeChal_refund saved c (mkBroken (Some "CHALLENGE_DELETED"%string) (Some w)) s s' b0);
    [|intros w' [= <-]; exact Hw|exact Hb|exact St].
  unfold refunds. simpl. apply String.eqb_neq in Hg. now rewrite Hg.
Qed.

Lemma teardown_refunds_leader_despite_winner_witness :
  let ops := fst (_closeChal true chal1 (mkBroken (Some "CHALLENGE_DELETED"%string) (Some bob))) in
  c_group chal1 <> "habitrpg"%string
  /\ stored_balance "alice" sample_store = Some 10
  /\ stored_balance "alice" (Q_allSettled ops sample_store) = Some (10 + prizeCost 8)
  /\ stored_balance "bob" (Q_allSettled ops sample_store) = Some (1 + 8 / 4).
Proof.
  intros ops.
  assert (G : c_group chal1 <> "habitrpg"%string) by discriminate.
  assert (W : u_id bob <> c_leader chal1) by discriminate.
  split; [exact G|]. split; [reflexivity|]. split; [|reflexivity].
  exact (teardown_refunds_leader_despite_winner true chal1 bob sample_store _ 10 G W eq_refl
           (settles_issue_order ops sample_store)).
Defined.

Lemma closeChal_winner_result (saved : bool) (c : Challenge) (reason : option string) (w : User) :
  snd (_closeChal saved c (mkBroken reason (Some w))) = Some (awarded c w)
  /\ In (winner_save saved (awarded c w) (c_name c))
        (fst (_closeChal saved c (mkBroken reason (Some w)))).
Proof.
  unfold _closeChal. simpl.
  destruct (negb (String.eqb (c_group c) "habitrpg")
            && match reason with
               | Some r => String.eqb r "CHALLENGE_DELETED"
               | None => false
               end); simpl; split; try reflexivity; tauto.
Qed.

(** The stored winner after a fulfilled save, in any order of completion. *)
Lemma closeChal_winner_stored (c : Challenge) (reason : option string) (w u : User) (s s' : Store) :
  settles (fst (_closeChal true c (mkBroken reason (Some w)))) s s' ->
  User_findOne s (u_id w) = Some u ->
  exists u', User_findOne s' (u_id w) = Some u'
             /\ u_achievements_challenges u' = u_achievements_challenges (awarded c w)
             /\ (c_leader c <> u_id w -> u_balance u' = u_balance (awarded c w)).
Proof.
  intros (order & Perm & ->) Hu.
  set (b := mkBroken reason (Some w)).
  assert (Sub : forall op, In op order -> In op (fst (_closeChal true c b))).
  { intros op Hin. apply (Permutation_in op (Permutation_sym Perm) Hin). }
  apply (allSettled_established
           (fun s => exists u0, User_findOne s (u_id w) = Some u0)
           (fun s => exists u', User_findOne s (u_id w) = Some u'
                                /\ u_achievements_challenges u' = u_achievements_challenges (awarded c w)
                                /\ (c_leader c <> u_id w -> u_balance u' = u_balance (awarded c w)))).
  - intros op _ s0 [u0 H0]. rewrite user_step, H0. simpl. now eexists.
  - intros op Hin s0 _ (u' & H' & A & B).
    rewrite user_step, H'. simpl. eexists. split; [reflexivity|].
    destruct (closeChal_ops true c b op (Sub op Hin))
      as [->|[->|[->|[->|[->|[->|(w0 & [= <-] & ->)]]]]]]; simpl; try (now split).
    + destruct (existsb (String.eqb (c_id c)) (u_challenges u') && has_tag (c_id c) u');
        now split.
    + destruct (String.eqb (c_leader c) (u_id w)) eqn:E; simpl; [|now split].
      apply String.eqb_eq in E. split; [exact A|]. intros N. now elim N.
    + rewrite String.eqb_refl. simpl. now split.
  - exists (winner_save true (awarded c w) (c_name c)). split.
    + apply (Permutation_in _ Perm). apply closeChal_winner_result.
    + intros s0 [u0 H0]. rewrite user_step, H0. simpl.
      rewrite String.eqb_refl. eexists. split; [reflexivity|]. now split.
  - now exists u.
Qed.

(** C5 (as the code has it). In a teardown with a winner the name of the
    challenge is appended to the winner's achievements, the winner's balance
    is credited by the prize cost and the winner is saved.  Nothing is sent
    unless that save is fulfilled; once it is, the stored winner carries the
    new achievements (and the new balance), a push notification naming the
    challenge is sent whatever the preferences of the winner, and the e-mail
    naming the challenge is sent only if the winner's e-mail preference for
    won challenges is not false. *)
Theorem teardown_awards_winner (saved : bool) (c : Challenge) (reason : option string)
        (w : User) (s s' : Store) :
  settles (fst (_closeChal saved c (mkBroken reason (Some w)))) s s' ->
  snd (_closeChal saved c (mkBroken reason (Some w))) = Some (awarded c w)
  /\ u_achievements_challenges (awarded c w) = u_achievements_challenges w ++ [c_name c]
  /\ u_balance (awarded c w) = u_balance w + prizeCost (c_prize c)
  /\ In (winner_save saved (awarded c w) (c_name c))
        (fst (_closeChal saved c (mkBroken reason (Some w))))
  /\ (saved = false -> s_outbox s' = s_outbox s)
  /\ (saved = true ->
      s_outbox s'
      = s_outbox s
        ++ (if not_false (u_wonChallenge w)
            then [txnEmail (u_id w) "won-challenge" [("CHALLENGE_NAME"%string, c_name c)]]
            else [])
        ++ [sendNotify (u_id w) "wonChallenge" (c_name c)])
  /\ (saved = true ->
      forall u, User_findOne s (u_id w) = Some u ->
      exists u', User_findOne s' (u_id w) = Some u'
                 /\ u_achievements_challenges u' = u_achievements_challenges (awarded c w)
                 /\ (c_leader c <> u_id w -> u_balance u' = u_balance (awarded c w))).
Proof.
  intros St.
  destruct (closeChal_winner_result saved c reason w) as [R I].
  pose proof (closeChal_outbox _ _ _ _ _ St) as O. rewrite R in O.
  repeat split; try assumption; try reflexivity.
  - intros ->. rewrite O. now rewrite app_nil_r.
  - intros ->. rewrite O. reflexivity.
  - intros -> u Hu. now apply (closeChal_winner_stored c reason w u s s').
Qed.

Lemma teardown_awards_winner_witness :
  let ops := fst (_closeChal true chal1 (mkBroken (Some "CHALLENGE_DELETED"%string) (Some alice))) in
  settles ops sample_store (Q_allSettled ops sample_store)
  /\ s_outbox (Q_allSettled ops sample_store)
     = [txnEmail "alice" "won-challenge" [("CHALLENGE_NAME"%string, "Flossing"%string)];
        sendNotify "alice" "wonChallenge" "Flossing"].
Proof.
  intros ops.
  assert (S : settles ops sample_store (Q_allSettled ops sample_store))
    by apply settles_issue_order.
  split; [exact S|].
  destruct (teardown_awards_winner true chal1 (Some "CHALLENGE_DELETED"%string) alice sample_store _ S)
    as (_ & _ & _ & _ & _ & O & _).
  exact (O eq_refl).
Defined.

(** C5 as stated fails: the winner has switched the won-challenge
    notification off, the save is fulfilled, and the push notification naming
    the challenge is sent all the same. *)
Lemma teardown_push_ignores_preference :
  let ops := fst (_closeChal true chal1 (mkBroken (Some "CHALLENGE_DELETED"%string) (Some bob))) in
  let push := sendNotify "bob" "wonChallenge" "Flossing" in
  not_false (u_wonChallenge bob) = false
  /\ ~ In push (s_outbox sample_store)
  /\ In push (s_outbox (Q_allSettled ops sample_store)).
Proof.
  split; [reflexivity|]. split.
  - intros H. exact H.
  - left. reflexivity.
Qed.

(** ** The other handlers *)

(** C2 (what the code does). Whenever the request passes validation,
    selectChallengeWinner answers NotFound for the challenge and dispatches
    nothing, whether or not the challenge exists: line 256 tests the variable
    [challenge], which is assigned on line 259 only. *)
Theorem selectChallengeWinner_not_found (saved : bool) (req : Request) (user : User) (s : Store) :
  validationErrors req = None ->
  selectChallengeWinner saved req user s = (next (NotFound "challengeNotFound"), s).
Proof. intros V. unfold selectChallengeWinner. now rewrite V. Qed.

Lemma selectChallengeWinner_not_found_witness :
  Challenge_findOne sample_store (challengeId (params (sample_request 8 false))) = Some chal1
  /\ c_leader chal1 = u_id alice
  /\ User_findOne sample_store (winnerId (params (sample_request 8 false))) = Some bob
  /\ not_indexOf (u_challenges bob) (c_id chal1) = false
  /\ selectChallengeWinner true (sample_request 8 false) alice sample_store
     = (next (NotFound "challengeNotFound"), sample_store).
Proof.
  do 4 (split; [reflexivity|]).
  exact (selectChallengeWinner_not_found true (sample_request 8 false) alice sample_store eq_refl).
Defined.



(** Line 212 checks the parameter 'challenge', which the route of
    deleteChallenge does not bind: the handler stops at line 215. *)
Lemma deleteChallenge_stops (saved : bool) (req : Request) (user : User) (s : Store) :
  deleteChallenge saved req user s
  = (next (ValidationErrors ["challengeIdRequired"; "challengeIdRequired"]%string), s).
Proof. reflexivity. Qed.



(** The count is a double: at 2^53 the increment of line 75 adds nothing. *)
Remark challengeCount_saturates (m : Mem) :
  g_challengeCount (m_group m) = 9007199254740992%float ->
  g_challengeCount (m_group (snd (construct m))) = 9007199254740992%float.
Proof. intros H. rewrite construct_throws. simpl. now rewrite H. Qed.

(** * Further properties *)

(** ** Funding and the gates of createChallenge *)

(** A request stopped before line 75 leaves everything as it was. *)
Lemma createChallenge_rejected (req : Request) (user : User) (s : Store) :
  cr_challenge (createChallenge req user s) = None ->
  exists e,
    createChallenge req user s
    = mkCreated (next e) user
        (match validationErrors req with
         | Some _ => None
         | None => Group_getGroup s user (b_group (body req))
         end)
        (body req) None s
    /\ forall msg, e <> TypeError msg.
Proof.
  intros H.
  destruct (validationErrors req) as [errs|] eqn:V.
  { unfold createChallenge. rewrite V. eexists. split; [reflexivity|discriminate]. }
  destruct (Group_getGroup s user (b_group (body req))) as [g|] eqn:G.
  2:{ unfold createChallenge. rewrite V, G. eexists. split; [reflexivity|discriminate]. }
  destruct (authorized g user (b_group (body req)) (b_prize (body req))) eqn:A.
  2:{ destruct (createChallenge_unauthorized req user s g V G A) as [msg E].
      rewrite E. eexists. split; [reflexivity|discriminate]. }
  destruct (affordable g user (b_prize (body req))) eqn:F.
  2:{ rewrite (createChallenge_unaffordable req user s g V G A F).
      eexists. split; [reflexivity|discriminate]. }
  destruct (createChallenge_constructs req user s g V G A F) as (gb & ub & _ & E).
  rewrite E in H. discriminate.
Qed.

(** X2. Whenever createChallenge answers with a validation, NotFound or
    NotAuthorized error, it has changed nothing: the member, the body of the
    request, the group it fetched and the database are as they were, and no
    challenge has been built. *)
Theorem createChallenge_rejection_mutates_nothing
        (req : Request) (user : User) (s : Store) (e : Error) :
  cr_response (createChallenge req user s) = next e ->
  (forall msg, e <> TypeError msg) ->
  cr_user (createChallenge req user s) = user
  /\ cr_body (createChallenge req user s) = body req
  /\ cr_challenge (createChallenge req user s) = None
  /\ cr_store (createChallenge req user s) = s
  /\ (cr_group (createChallenge req user s) = None
      \/ cr_group (createChallenge req user s)
         = Group_getGroup s user (b_group (body req))).
Proof.
  intros R N.
  destruct (cr_challenge (createChallenge req user s)) as [c|] eqn:C.
  - destruct (createChallenge_challenge req user s c C) as (g & V & G & A & F).
    destruct (createChallenge_constructs req user s g V G A F) as (gb & ub & _ & E).
    rewrite E in R. simpl in R. injection R as <-. now elim (N "object is not a function"%string).
  - destruct (createChallenge_rejected req user s C) as (e' & E & _).
    rewrite E. simpl. repeat split.
    destruct (validationErrors req); [now left|now right].
Qed.

Lemma createChallenge_rejection_mutates_nothing_witness :
  cr_response (createChallenge (sample_request 20 false) bob sample_store)
  = next (NotAuthorized "cantAfford")
  /\ cr_user (createChallenge (sample_request 20 false) bob sample_store) = bob
  /\ cr_store (createChallenge (sample_request 20 false) bob sample_store) = sample_store.
Proof.
  assert (R : cr_response (createChallenge (sample_request 20 false) bob sample_store)
              = next (NotAuthorized "cantAfford")) by reflexivity.
  assert (N : forall msg, NotAuthorized "cantAfford" <> TypeError msg) by discriminate.
  destruct (createChallenge_rejection_mutates_nothing _ _ _ _ R N) as (U & _ & _ & S & _).
  split; [exact R|]. split; [exact U|exact S].
Defined.

(** X3. A request without a positive prize charges nobody: whatever the
    handler does with it, the balance of the member and the balance of the
    group it holds are the ones it started with. *)
Theorem createChallenge_no_prize_no_charge (req : Request) (user : User) (s : Store) :
  js_gt (b_prize (body req)) 0 = false ->
  cr_user (createChallenge req user s) = user
  /\ forall g', cr_group (createChallenge req user s) = Some g' ->
                exists g, Group_getGroup s user (b_group (body req)) = Some g
                          /\ g_balance g' = g_balance g.
Proof.
  intros J.
  destruct (cr_challenge (createChallenge req user s)) as [c|] eqn:C.
  - destruct (createChallenge_challenge req user s c C) as (g & V & G & A & F).
    destruct (createChallenge_constructs req user s g V G A F) as (gb & ub & Fu & E).
    rewrite (fund_no_prize _ _ J) in Fu. injection Fu as Eu Eg.
    rewrite E. simpl. split; [now rewrite <- Eu|].
    intros g' [= <-]. exists g. split; [exact G|]. simpl.
    apply (f_equal g_balance) in Eg. simpl in Eg. congruence.
  - destruct (createChallenge_rejected req user s C) as (e' & E & _).
    rewrite E. simpl. split; [reflexivity|].
    intros g' Hg. destruct (validationErrors req); [discriminate|].
    exists g'. now split.
Qed.

Lemma createChallenge_no_prize_no_charge_witness :
  js_gt (b_prize (body (sample_request 0 false))) 0 = false
  /\ cr_response (createChallenge (sample_request 0 false) alice sample_store)
     = next (TypeError "object is not a function")
  /\ cr_user (createChallenge (sample_request 0 false) alice sample_store) = alice.
Proof.
  assert (J : js_gt (b_prize (body (sample_request 0 false))) 0 = false) by reflexivity.
  split; [exact J|]. split; [reflexivity|].
  exact (proj1 (createChallenge_no_prize_no_charge (sample_request 0 false) alice sample_store J)).
Defined.

Lemma authorize_messages (groupId : string) (prize : option Q) (m : Mem) :
  authorize groupId prize m
  = (if leaderOnly_challenges (m_group m)
        && negb (String.eqb (g_leader (m_group m)) (u_id (m_user m)))
     then inl (NotAuthorized "onlyGroupLeaderChal")
     else if String.eqb groupId "habitrpg" && js_lt prize 1
          then inl (NotAuthorized "pubChalsMinPrize")
          else inr tt, m).
Proof.
  unfold authorize, bind, gets, throw, ret.
  destruct (leaderOnly_challenges (m_group m)
            && negb (String.eqb (g_leader (m_group m)) (u_id (m_user m))));
    [reflexivity|].
  destruct (String.eqb groupId "habitrpg" && js_lt prize 1); reflexivity.
Qed.

(** The answer of createChallenge, test by test. *)
Lemma createChallenge_response (req : Request) (user : User) (s : Store) :
  cr_response (createChallenge req user s) = next (createChallenge_error req user s).
Proof.
  unfold createChallenge_error.
  destruct (validationErrors req) as [errs|] eqn:V.
  { unfold createChallenge. now rewrite V. }
  destruct (Group_getGroup s user (b_group (body req))) as [g|] eqn:G.
  2:{ unfold createChallenge. now rewrite V, G. }
  destruct (authorized g user (b_group (body req)) (b_prize (body req))) eqn:A.
  - unfold authorized in A. apply andb_true_iff in A as [A1 A2].
    apply negb_true_iff in A1. apply negb_true_iff in A2. rewrite A1, A2.
    assert (A : authorized g user (b_group (body req)) (b_prize (body req)) = true)
      by (unfold authorized; now rewrite A1, A2).
    destruct (affordable g user (b_prize (body req))) eqn:F.
    + destruct (createChallenge_constructs req user s g V G A F) as (gb & ub & _ & E).
      now rewrite E.
    + now rewrite (createChallenge_unaffordable req user s g V G A F).
  - unfold createChallenge. rewrite V, G. unfold createChallenge_chain, bind.
    rewrite authorize_messages. simpl.
    unfold authorized in A.
    destruct (leaderOnly_challenges g && negb (String.eqb (g_leader g) (u_id user)));
      [reflexivity|].
    simpl in A. apply negb_false_iff in A. now rewrite A.
Qed.

(** X4. createChallenge answers that only the group leader may create
    challenges exactly when the request is valid, the group exists, the group
    reserves challenges to its leader and the requester is not that leader;
    the prize and the balances play no part. *)
Theorem createChallenge_onlyGroupLeaderChal (req : Request) (user : User) (s : Store) :
  cr_response (createChallenge req user s) = next (NotAuthorized "onlyGroupLeaderChal")
  <-> validationErrors req = None
      /\ exists g, Group_getGroup s user (b_group (body req)) = Some g
                   /\ leaderOnly_challenges g = true
                   /\ g_leader g <> u_id user.
Proof.
  rewrite createChallenge_response. unfold createChallenge_error. split.
  - intros H. destruct (validationErrors req); [discriminate|]. split; [reflexivity|].
    destruct (Group_getGroup s user (b_group (body req))) as [g|]; [|discriminate].
    exists g. split; [reflexivity|].
    destruct (leaderOnly_challenges g) eqn:L; simpl in H.
    + destruct (String.eqb (g_leader g) (u_id user)) eqn:E; simpl in H.
      * destruct (String.eqb (b_group (body req)) "habitrpg" && js_lt (b_prize (body req)) 1);
          [discriminate|].
        destruct (affordable g user (b_prize (body req))); discriminate.
      * split; [reflexivity|]. now apply String.eqb_neq.
    + destruct (String.eqb (b_group (body req)) "habitrpg" && js_lt (b_prize (body req)) 1);
        [discriminate|].
      destruct (affordable g user (b_prize (body req))); discriminate.
  - intros (-> & g & -> & L & N). apply String.eqb_neq in N. now rewrite L, N.
Qed.

(** X5. In the group habitrpg a valid request whose prize is a number below
    1 is always refused with NotAuthorized: with the leader-only message when
    the group reserves challenges to a leader who is not the requester, with
    the minimum-prize message otherwise. *)
Theorem createChallenge_public_prize
        (req : Request) (user : User) (s : Store) (g : Group) (p : Q) :
  validationErrors req = None ->
  Group_getGroup s user (b_group (body req)) = Some g ->
  b_group (body req) = "habitrpg"%string ->
  b_prize (body req) = Some p ->
  p < 1 ->
  cr_response (createChallenge req user s)
  = next (NotAuthorized
            (if leaderOnly_challenges g && negb (String.eqb (g_leader g) (u_id user))
             then "onlyGroupLeaderChal" else "pubChalsMinPrize")%string).
Proof.
  rewrite createChallenge_response. unfold createChallenge_error.
  intros -> -> -> -> Hp.
  destruct (leaderOnly_challenges g && negb (String.eqb (g_leader g) (u_id user)));
    [reflexivity|].
  simpl. unfold Qltb. destruct (Qle_bool 1 p) eqn:E; [|reflexivity].
  apply Qle_bool_iff in E. lra.
Qed.

(** X6. The challenge that the handler builds is led by the requester and
    belongs to the requested group, whatever leader the body of the request
    names; the body itself is rewritten to name the requester. *)
Theorem createChallenge_leader_is_requester
        (req : Request) (user : User) (s : Store) (c : Challenge) :
  cr_challenge (createChallenge req user s) = Some c ->
  c_leader c = u_id user
  /\ c_group c = b_group (body req)
  /\ c_name c = b_name (body req)
  /\ b_leader (cr_body (createChallenge req user s)) = Some (u_id user).
Proof.
  intros H.
  destruct (createChallenge_challenge req user s c H) as (g & V & G & A & F).
  destruct (createChallenge_constructs req user s g V G A F) as (gb & ub & _ & E).
  rewrite E in H |- *. simpl in H. injection H as <-. simpl. now repeat split.
Qed.

Lemma createChallenge_leader_is_requester_witness :
  let req := mkRequest None (set_b_leader (Some "mallory"%string) (sample_body 8 false))
               (mkParams "chal-1" "bob") sample_uuid 1000 in
  b_leader (body req) = Some "mallory"%string
  /\ exists c, cr_challenge (createChallenge req alice sample_store) = Some c
               /\ c_leader c = "alice"%string.
Proof.
  intros req. split; [reflexivity|].
  exists (mkChallenge "uuid-0" "Flossing" "guild-1" "alice" 8 false 1000 emptyTasksOrder).
  assert (H : cr_challenge (createChallenge req alice sample_store)
              = Some (mkChallenge "uuid-0" "Flossing" "guild-1" "alice" 8 false 1000
                        emptyTasksOrder)) by reflexivity.
  split; [exact H|].
  exact (proj1 (createChallenge_leader_is_requester req alice sample_store _ H)).
Defined.

Lemma createChallenge_onlyGroupLeaderChal_witness :
  let req := mkRequest None (mkBody "guild-2" (Some 400) None "Hoard" None false)
               (mkParams "" "") sample_uuid 1000 in
  Group_getGroup wide_store bob "guild-2" = Some closed_guild
  /\ cr_response (createChallenge req bob wide_store)
     = next (NotAuthorized "onlyGroupLeaderChal").
Proof.
  intros req. split; [reflexivity|].
  apply (proj2 (createChallenge_onlyGroupLeaderChal req bob wide_store)).
  split; [reflexivity|]. exists closed_guild.
  split; [reflexivity|]. split; [reflexivity|discriminate].
Defined.

Lemma createChallenge_public_prize_witness :
  let req := mkRequest None (mkBody "habitrpg" (Some (1 # 2)) None "Cheap" None false)
               (mkParams "" "") sample_uuid 1000 in
  Group_getGroup wide_store alice "habitrpg" = Some tavern
  /\ (1 # 2) < 1
  /\ cr_response (createChallenge req alice wide_store) = next (NotAuthorized "pubChalsMinPrize").
Proof.
  intros req. split; [reflexivity|]. split; [reflexivity|].
  exact (createChallenge_public_prize req alice wide_store tavern (1 # 2)
           eq_refl eq_refl eq_refl eq_refl eq_refl).
Defined.

(** ** getChallenges *)

Lemma insert_sorted_perm (c : Challenge) (l : list Challenge) :
  Permutation (insert_sorted c l) (c :: l).
Proof.
  induction l as [|x l IH]; simpl; [apply Permutation_refl|].
  destruct (sorts_before c x); [apply Permutation_refl|].
  eapply perm_trans; [apply perm_skip; exact IH|apply perm_swap].
Qed.

Lemma sort_challenges_perm (l : list Challenge) : Permutation (sort_challenges l) l.
Proof.
  induction l as [|x l IH]; simpl; [apply perm_nil|].
  eapply perm_trans; [apply insert_sorted_perm|now apply perm_skip].
Qed.

Lemma sorts_before_total (a b : Challenge) : sorts_before a b = false -> before b a.
Proof.
  unfold before, sorts_before.
  destruct (c_official a), (c_official b); try discriminate; try reflexivity;
    intros H; apply Z.leb_gt in H; apply Z.leb_le; lia.
Qed.

Lemma before_trans (a b c : Challenge) : before a b -> before b c -> before a c.
Proof.
  unfold before, sorts_before.
  destruct (c_official a), (c_official b), (c_official c); try discriminate; try reflexivity;
    intros H1 H2; apply Z.leb_le in H1; apply Z.leb_le in H2; apply Z.leb_le; lia.
Qed.

Lemma insert_sorted_sorted (c : Challenge) (l : list Challenge) :
  StronglySorted before l -> StronglySorted before (insert_sorted c l).
Proof.
  induction l as [|x l IH]; intros S; simpl.
  - constructor; constructor.
  - inversion S as [|? ? Sl Fx]; subst.
    destruct (sorts_before c x) eqn:E.
    + constructor; [exact S|]. constructor; [exact E|].
      rewrite Forall_forall in Fx |- *. intros y Hy.
      apply (before_trans c x y); [exact E|now apply Fx].
    + constructor; [now apply IH|].
      rewrite Forall_forall in Fx |- *. intros y Hy.
      apply (Permutation_in _ (insert_sorted_perm c l)) in Hy. destruct Hy as [<-|Hy].
      * now apply sorts_before_total.
      * now apply Fx.
Qed.

Lemma sort_challenges_sorted (l : list Challenge) : StronglySorted before (sort_challenges l).
Proof.
  induction l as [|x l IH]; simpl; [constructor|now apply insert_sorted_sorted].
Qed.

Lemma sorted_split (l1 l2 : list Challenge) (a b : Challenge) :
  StronglySorted before (l1 ++ a :: l2) -> In b l2 -> before a b.
Proof.
  induction l1 as [|x l1 IH]; simpl; intros S Hb.
  - inversion S as [|? ? _ F]; subst. rewrite Forall_forall in F. now apply F.
  - inversion S; subst. now apply IH.
Qed.

Lemma listed_eq (user : User) (s : Store) :
  listed user s
  = sort_challenges
      (filter (fun c =>
                 (existsb (String.eqb (c_id c)) (u_challenges user)
                  || existsb (String.eqb (c_group c))
                       ((match u_party user with
                         | Some p => u_guilds user ++ [p]
                         | None => u_guilds user
                         end) ++ ["habitrpg"%string])
                  || String.eqb (c_leader c) (u_id user))
                 && negb (String.eqb (c_id c) spreadTheWord))
              (s_challenges s)).
Proof. reflexivity. Qed.

Lemma existsb_eqb_In (x : string) (l : list string) :
  existsb (String.eqb x) l = true <-> In x l.
Proof.
  rewrite existsb_exists. split.
  - intros (y & Hy & E). apply String.eqb_eq in E. now subst.
  - intros H. exists x. split; [exact H|apply String.eqb_refl].
Qed.

(** X7. getChallenges lists exactly the stored challenges that the member
    has joined, that belong to one of the member's guilds, to the member's
    party or to habitrpg, or that the member leads, the Spread the Word
    challenge excepted; and it lists none of them twice unless it is stored
    twice. *)
Theorem getChallenges_lists (user : User) (s : Store) :
  (forall c, In c (listed user s)
             <-> In c (s_challenges s) /\ c_id c <> spreadTheWord /\ visible_to user c)
  /\ (NoDup (s_challenges s) -> NoDup (listed user s)).
Proof.
  rewrite listed_eq. split.
  - intros c. split.
    + intros H. apply (Permutation_in _ (sort_challenges_perm _)) in H.
      apply filter_In in H as [Hin H]. apply andb_true_iff in H as [V N].
      split; [exact Hin|]. split.
      * apply negb_true_iff in N. now apply String.eqb_neq.
      * unfold visible_to.
        apply orb_true_iff in V as [V|V]; [apply orb_true_iff in V as [V|V]|].
        -- left. now apply existsb_eqb_In.
        -- apply existsb_eqb_In in V. apply in_app_or in V as [V|[V|[]]].
           ++ destruct (u_party user) as [p|].
              ** apply in_app_or in V as [V|[V|[]]]; [tauto|]. subst. tauto.
              ** tauto.
           ++ symmetry in V. tauto.
        -- apply String.eqb_eq in V. tauto.
    + intros (Hin & N & V).
      apply (Permutation_in _ (Permutation_sym (sort_challenges_perm _))).
      apply filter_In. split; [exact Hin|]. apply andb_true_iff. split.
      * unfold visible_to in V.
        destruct V as [V|[V|[V|[V|V]]]].
        -- apply orb_true_iff. left. apply orb_true_iff. left. now apply existsb_eqb_In.
        -- apply orb_true_iff. left. apply orb_true_iff. right. apply existsb_eqb_In.
           apply in_or_app. left. destruct (u_party user); [apply in_or_app|]; tauto.
        -- apply orb_true_iff. left. apply orb_true_iff. right. apply existsb_eqb_In.
           apply in_or_app. left. rewrite V. apply in_or_app. right. now left.
        -- apply orb_true_iff. left. apply orb_true_iff. right. apply existsb_eqb_In.
           apply in_or_app. right. left. now symmetry.
        -- apply orb_true_iff. right. rewrite V. apply String.eqb_refl.
      * apply negb_true_iff. now apply String.eqb_neq.
  - intros ND.
    apply (Permutation_NoDup (Permutation_sym (sort_challenges_perm _))).
    now apply NoDup_filter.
Qed.

Lemma getChallenges_lists_witness :
  In chal_public (listed bob wide_store)
  /\ In chal1 (listed bob wide_store)
  /\ ~ In chal_recent (listed bob wide_store)
  /\ ~ In chal_hidden (listed bob wide_store).
Proof.
  destruct (getChallenges_lists bob wide_store) as [L _].
  repeat split.
  - apply L. split; [simpl; tauto|]. split; [discriminate|]. unfold visible_to. simpl. tauto.
  - apply L. split; [simpl; tauto|]. split; [discriminate|]. unfold visible_to. simpl. tauto.
  - intros H. apply L in H as (_ & _ & V). unfold visible_to in V. simpl in V.
    destruct V as [[V|[]]|[[]|[V|[V|V]]]]; discriminate.
  - intros H. apply L in H as (_ & N & _). now apply N.
Defined.

(** X8. The list of getChallenges is ordered: a challenge never comes after
    one that is less official, and among challenges of the same standing
    never after a later one. *)
Theorem getChallenges_sorted (user : User) (s : Store)
        (l1 l2 : list Challenge) (a b : Challenge) :
  listed user s = l1 ++ a :: l2 ->
  In b l2 ->
  (c_official b = true -> c_official a = true)
  /\ (c_official a = c_official b -> (c_timestamp b <= c_timestamp a)%Z).
Proof.
  intros E Hb.
  assert (B : before a b).
  { apply (sorted_split l1 l2); [|exact Hb].
    rewrite <- E, listed_eq. apply sort_challenges_sorted. }
  unfold before, sorts_before in B.
  destruct (c_official a), (c_official b); try discriminate; split;
    try reflexivity; try discriminate; intros _; now apply Z.leb_le.
Qed.

Lemma getChallenges_sorted_witness :
  listed alice wide_store = [] ++ chal_public :: [chal1]
  /\ c_official chal_public = true
  /\ (c_official chal1 = true -> c_official chal_public = true).
Proof.
  assert (E : listed alice wide_store = [] ++ chal_public :: [chal1]) by reflexivity.
  split; [exact E|]. split; [reflexivity|].
  exact (proj1 (getChallenges_sorted alice wide_store [] [chal1] chal_public chal1 E
                  (or_introl eq_refl))).
Defined.

(** ** Teardown: the challenge record *)

Lemma find_filter_none {A : Type} (p q : A -> bool) (l : list A) :
  (forall x, p x = true -> q x = false) -> find p (filter q l) = None.
Proof.
  intros H. induction l as [|x l IH]; simpl; [reflexivity|].
  destruct (q x) eqn:Q; [|exact IH]. simpl.
  destruct (p x) eqn:P; [|exact IH]. rewrite (H x P) in Q. discriminate.
Qed.

Lemma find_filter_same {A : Type} (p q : A -> bool) (l : list A) :
  (forall x, p x = true -> q x = true) -> find p (filter q l) = find p l.
Proof.
  intros H. induction l as [|x l IH]; simpl; [reflexivity|].
  destruct (p x) eqn:P.
  - rewrite (H x P). simpl. now rewrite P.
  - destruct (q x); simpl; [now rewrite P|exact IH].
Qed.

Lemma allSettled_challenges (ops : list Op) (s : Store) :
  s_challenges (Q_allSettled ops s)
  = fold_left remove_challenge (flat_map challenge_removes ops) (s_challenges s).
Proof.
  revert s. induction ops as [|op ops IH]; intros s; [reflexivity|].
  rewrite allSettled_cons, IH. simpl. rewrite fold_left_app. f_equal.
  destruct op; try reflexivity. simpl. destruct fulfilled; reflexivity.
Qed.

Lemma closeChal_challenge_removes (saved : bool) (c : Challenge) (b : Broken) :
  flat_map challenge_removes (fst (_closeChal saved c b)) = [c_id c].
Proof.
  unfold _closeChal.
  destruct (negb (String.eqb (c_group c) "habitrpg")
            && match broken b with
               | Some r => String.eqb r "CHALLENGE_DELETED"
               | None => false
               end);
    destruct (winner b); reflexivity.
Qed.

Lemma closeChal_challenges (saved : bool) (c : Challenge) (b : Broken) (s s' : Store) :
  settles (fst (_closeChal saved c b)) s s' ->
  s_challenges s' = remove_challenge (s_challenges s) (c_id c).
Proof.
  intros (order & Perm & ->).
  rewrite allSettled_challenges.
  pose proof (Permutation_flat_map challenge_removes Perm) as P.
  rewrite closeChal_challenge_removes in P.
  apply Permutation_length_1_inv in P. now rewrite P.
Qed.

Lemma closeChal_challenge_gone (saved : bool) (c : Challenge) (b : Broken) (s s' : Store) :
  settles (fst (_closeChal saved c b)) s s' ->
  Challenge_findOne s' (c_id c) = None.
Proof.
  intros St. unfold Challenge_findOne.
  rewrite (closeChal_challenges saved c b s s' St). unfold remove_challenge.
  apply find_filter_none. intros x Hx. now rewrite Hx.
Qed.

(** X9. However the requests of a teardown settle, the challenge can no
    longer be found afterwards, and every other challenge is found as
    before. *)
Theorem teardown_removes_challenge (saved : bool) (c : Challenge) (b : Broken) (s s' : Store) :
  settles (fst (_closeChal saved c b)) s s' ->
  s_challenges s' = remove_challenge (s_challenges s) (c_id c)
  /\ Challenge_findOne s' (c_id c) = None
  /\ forall id, id <> c_id c -> Challenge_findOne s' id = Challenge_findOne s id.
Proof.
  intros St.
  split; [now apply (closeChal_challenges saved c b)|].
  split; [now apply (closeChal_challenge_gone saved c b s)|].
  intros id N. unfold Challenge_findOne.
  rewrite (closeChal_challenges saved c b s s' St). unfold remove_challenge.
  apply find_filter_same. intros x Hx.
  apply String.eqb_eq in Hx. apply negb_true_iff. apply String.eqb_neq. congruence.
Qed.

Lemma teardown_removes_challenge_witness :
  let ops := fst (_closeChal true chal1 (mkBroken (Some "CHALLENGE_DELETED"%string) None)) in
  Challenge_findOne wide_store "chal-1" = Some chal1
  /\ Challenge_findOne (Q_allSettled ops wide_store) "chal-1" = None
  /\ Challenge_findOne (Q_allSettled ops wide_store) "chal-2" = Some chal_public.
Proof.
  intros ops.
  destruct (teardown_removes_challenge true chal1 _ wide_store _
              (settles_issue_order ops wide_store)) as (_ & Gone & Others).
  split; [reflexivity|]. split; [exact Gone|].
  rewrite (Others "chal-2"%string); [reflexivity|discriminate].
Defined.

(** ** Teardown: joined sets and tags *)

Lemma allSettled_user (uid : string) (ops : list Op) (s : Store) :
  User_findOne (Q_allSettled ops s) uid
  = option_map (fun u => fold_left (fun u op => user_effect uid op u) ops u)
               (User_findOne s uid).
Proof.
  revert s. induction ops as [|op ops IH]; intros s.
  - simpl. now destruct (User_findOne s uid).
  - rewrite allSettled_cons, IH, user_step. now destruct (User_findOne s uid).
Qed.

Lemma membership_effect (uid : string) (op : Op) (u : User) :
  membership (user_effect uid op u)
  = fold_left (fun p cid => untagged cid p) (tag_updates op) (membership u).
Proof.
  destruct op; simpl; try reflexivity.
  - unfold untagged, has_tag, membership. simpl.
    destruct (existsb (String.eqb cid) (u_challenges u)
              && existsb (fun t => String.eqb (tag_id t) cid) (u_tags u)); reflexivity.
  - destruct (String.eqb uid0 uid); reflexivity.
  - destruct fulfilled; [|reflexivity]. destruct (String.eqb (u_id w) uid); reflexivity.
Qed.

Lemma membership_fold (uid : string) (ops : list Op) (u : User) :
  membership (fold_left (fun u op => user_effect uid op u) ops u)
  = fold_left (fun p cid => untagged cid p) (flat_map tag_updates ops) (membership u)
  /\ u_id (fold_left (fun u op => user_effect uid op u) ops u) = u_id u.
Proof.
  revert u. induction ops as [|op ops IH]; intros u; [now split|].
  simpl. destruct (IH (user_effect uid op u)) as [M I]. split.
  - now rewrite M, fold_left_app, membership_effect.
  - now rewrite I, user_effect_id.
Qed.

Lemma closeChal_tag_updates (saved : bool) (c : Challenge) (b : Broken) :
  flat_map tag_updates (fst (_closeChal saved c b)) = [c_id c].
Proof.
  unfold _closeChal.
  destruct (negb (String.eqb (c_group c) "habitrpg")
            && match broken b with
               | Some r => String.eqb r "CHALLENGE_DELETED"
               | None => false
               end);
    destruct (winner b); reflexivity.
Qed.

(** X10. However the requests of a teardown settle, a stored member who had
    the challenge both in the joined set and among the tags has lost it from
    the joined set, and every other joined challenge is kept; a member who
    lacks either of the two keeps the joined set as it was, so that a member
    who joined without a tag for the challenge still lists it afterwards. *)
Theorem teardown_membership (saved : bool) (c : Challenge) (b : Broken) (s s' : Store)
        (uid : string) (u : User) :
  settles (fst (_closeChal saved c b)) s s' ->
  User_findOne s uid = Some u ->
  exists u',
    User_findOne s' uid = Some u'
    /\ u_id u' = u_id u
    /\ (In (c_id c) (u_challenges u) -> has_tag (c_id c) u = true ->
        ~ In (c_id c) (u_challenges u')
        /\ (forall x, x <> c_id c -> (In x (u_challenges u') <-> In x (u_challenges u))))
    /\ (~ In (c_id c) (u_challenges u) \/ has_tag (c_id c) u = false ->
        u_challenges u' = u_challenges u).
Proof.
  intros (order & Perm & ->) Hu.
  rewrite allSettled_user, Hu. simpl. eexists. split; [reflexivity|].
  destruct (membership_fold uid order u) as [M I].
  pose proof (Permutation_flat_map tag_updates Perm) as P.
  rewrite closeChal_tag_updates in P. apply Permutation_length_1_inv in P.
  rewrite P in M. simpl in M.
  split; [exact I|].
  unfold membership in M. unfold untagged in M. simpl in M. fold (has_tag (c_id c) u) in M.
  split.
  - intros J T. apply existsb_eqb_In in J. rewrite J, T in M. simpl in M.
    injection M as Mc _. rewrite Mc. split.
    + intros H. apply filter_In in H as [_ H]. now rewrite String.eqb_refl in H.
    + intros x N. rewrite filter_In. split; [tauto|].
      intros H. split; [exact H|]. apply negb_true_iff. now apply String.eqb_neq.
  - intros H.
    assert (F : existsb (String.eqb (c_id c)) (u_challenges u) && has_tag (c_id c) u = false).
    { destruct H as [H| ->]; [|apply andb_false_r].
      destruct (existsb (String.eqb (c_id c)) (u_challenges u)) eqn:E; [|reflexivity].
      apply existsb_eqb_In in E. contradiction. }
    rewrite F in M. now injection M as Mc _.
Qed.

Lemma teardown_membership_witness :
  let ops := fst (_closeChal true chal1 (mkBroken (Some "CHALLENGE_DELETED"%string) None)) in
  let joined_untagged := set_u_tags [] bob in
  let s := set_s_users [alice; joined_untagged] sample_store in
  (exists u', User_findOne (Q_allSettled ops sample_store) "bob" = Some u'
              /\ ~ In "chal-1"%string (u_challenges u'))
  /\ (exists u', User_findOne (Q_allSettled ops s) "bob" = Some u'
                 /\ u_challenges u' = ["chal-1"%string]).
Proof.
  intros ops joined_untagged s. split.
  - destruct (teardown_membership true chal1 _ sample_store _ "bob" bob
                (settles_issue_order ops sample_store) eq_refl)
      as (u' & F & _ & Both & _).
    exists u'. split; [exact F|].
    destruct Both as (Gone & _); [simpl; tauto|reflexivity|exact Gone].
  - destruct (teardown_membership true chal1 _ s _ "bob" joined_untagged
                (settles_issue_order ops s) eq_refl)
      as (u' & F & _ & _ & Keep).
    exists u'. split; [exact F|]. apply Keep. now right.
Defined.

(** ** Teardown: balances *)

(** X11. However the requests of a teardown settle, the stored balance of
    the challenge leader grows by a quarter of the prize when the reason is
    CHALLENGE_DELETED and the group is not habitrpg, and is unchanged
    otherwise (the winner, if any, being another member): a challenge of
    habitrpg is never refunded. *)
Theorem teardown_refund_rule (saved : bool) (c : Challenge) (b : Broken) (s s' : Store) (b0 : Q) :
  (forall w, winner b = Some w -> u_id w <> c_leader c) ->
  stored_balance (c_leader c) s = Some b0 ->
  settles (fst (_closeChal saved c b)) s s' ->
  (c_group c <> "habitrpg"%string -> broken b = Some "CHALLENGE_DELETED"%string ->
   stored_balance (c_leader c) s' = Some (b0 + c_prize c / 4))
  /\ (c_group c = "habitrpg"%string \/ broken b <> Some "CHALLENGE_DELETED"%string ->
      stored_balance (c_leader c) s' = Some b0).
Proof.
  intros Hw Hb St.
  rewrite (closeChal_refund saved c b s s' b0 Hw Hb St). unfold refunds. split.
  - intros G ->. apply String.eqb_neq in G. now rewrite G.
  - intros [G|R].
    + rewrite G. reflexivity.
    + destruct (broken b) as [r|]; [|now rewrite andb_false_r].
      destruct (String.eqb r "CHALLENGE_DELETED") eqn:E; [|now rewrite andb_false_r].
      apply String.eqb_eq in E. subst r. now elim R.
Qed.

Lemma teardown_refund_rule_witness :
  let b := mkBroken (Some "CHALLENGE_DELETED"%string) None in
  stored_balance "alice" sample_store = Some 10
  /\ stored_balance "alice" (Q_allSettled (fst (_closeChal true chal1 b)) sample_store)
     = Some (10 + 8 / 4)
  /\ stored_balance "root" (Q_allSettled (fst (_closeChal true chal_public b)) wide_store)
     = Some 10.
Proof.
  intros b. split; [reflexivity|]. split.
  - refine (proj1 (teardown_refund_rule true chal1 b sample_store _ 10 _ eq_refl
                     (settles_issue_order _ _)) _ eq_refl); discriminate.
  - refine (proj2 (teardown_refund_rule true chal_public b wide_store _ 10 _ eq_refl
                     (settles_issue_order _ _)) (or_introl eq_refl)); discriminate.
Defined.

Lemma flat_map_all_nil {A B : Type} (f : A -> list B) (l : list A) :
  (forall x, In x l -> f x = []) -> flat_map f l = [].
Proof.
  induction l as [|x l IH]; intros H; [reflexivity|].
  simpl. rewrite (H x (or_introl eq_refl)), IH; [reflexivity|].
  intros y Hy. apply H. now right.
Qed.

(** X12. A teardown changes the stored balance of nobody but the challenge
    leader and the winner, however its requests settle. *)
Theorem teardown_spares_bystanders (saved : bool) (c : Challenge) (b : Broken) (s s' : Store)
        (uid : string) :
  uid <> c_leader c ->
  (forall w, winner b = Some w -> u_id w <> uid) ->
  settles (fst (_closeChal saved c b)) s s' ->
  stored_balance uid s' = stored_balance uid s.
Proof.
  intros Hl Hw (order & Perm & ->).
  assert (Sub : forall op, In op order -> In op (fst (_closeChal saved c b))).
  { intros op Hin. apply (Permutation_in op (Permutation_sym Perm) Hin). }
  rewrite allSettled_stored_balance.
  - replace (flat_map (balance_incs uid) order) with (@nil Q); [reflexivity|].
    symmetry. apply flat_map_all_nil. intros op Hin.
    destruct (closeChal_ops saved c b op (Sub op Hin))
      as [->|[->|[->|[->|[->|[->|(w & _ & ->)]]]]]]; try reflexivity.
    simpl. apply String.eqb_neq in Hl. now rewrite String.eqb_sym, Hl.
  - intros op Hin.
    destruct (closeChal_ops saved c b op (Sub op Hin))
      as [->|[->|[->|[->|[->|[->|(w & W & ->)]]]]]]; try reflexivity.
    simpl. apply negb_true_iff. apply String.eqb_neq. now apply Hw.
Qed.

Lemma teardown_spares_bystanders_witness :
  let ops := fst (_closeChal true chal1 (mkBroken (Some "CHALLENGE_DELETED"%string) (Some bob))) in
  "root"%string <> c_leader chal1
  /\ stored_balance "root" (Q_allSettled ops sample_store) = Some 10.
Proof.
  intros ops.
  assert (L : "root"%string <> c_leader chal1) by discriminate.
  split; [exact L|].
  rewrite (teardown_spares_bystanders true chal1
             (mkBroken (Some "CHALLENGE_DELETED"%string) (Some bob))
             sample_store (Q_allSettled ops sample_store) "root" L);
    [reflexivity| |apply settles_issue_order].
  intros w [= <-]. discriminate.
Defined.

(** ** Teardown: the order of completion *)

Lemma filter_map_swap {A : Type} (p : A -> bool) (f : A -> A) (l : list A) :
  (forall x, p (f x) = p x) -> filter p (map f l) = map f (filter p l).
Proof.
  intros H. induction l as [|x l IH]; simpl; [reflexivity|].
  rewrite H. destruct (p x); simpl; now rewrite IH.
Qed.

Lemma map_update_first_swap {A : Type} (p : A -> bool) (f h : A -> A) (l : list A) :
  (forall x, p (h x) = p x) -> (forall x, h (f x) = f (h x)) ->
  map h (update_first p f l) = update_first p f (map h l).
Proof.
  intros Hp Hc. induction l as [|x l IH]; simpl; [reflexivity|].
  rewrite Hp. destruct (p x); simpl; [now rewrite Hc|now rewrite IH].
Qed.

Lemma update_first_swap {A : Type} (p q : A -> bool) (f g : A -> A) (l : list A) :
  (forall x, p x = true -> q x = false) ->
  (forall x, p (g x) = p x) -> (forall x, q (f x) = q x) ->
  update_first p f (update_first q g l) = update_first q g (update_first p f l).
Proof.
  intros D Hp Hq. induction l as [|x l IH]; simpl; [reflexivity|].
  destruct (p x) eqn:P.
  - rewrite (D x P). simpl. rewrite P, Hq, (D x P). reflexivity.
  - destruct (q x) eqn:Q; simpl.
    + now rewrite Hp, P, Q.
    + now rewrite P, Q, IH.
Qed.

Lemma commute_sym (a b : Op) : commute a b -> commute b a.
Proof. intros H s. symmetry. apply H. Qed.

Lemma break_task_same (cid : string) (r w : option string) (t : Task) :
  bound_to cid (break_task r w t) = bound_to cid t
  /\ unowned (break_task r w t) = unowned t.
Proof. split; reflexivity. Qed.

Lemma commute_tasks (cid : string) (r w : option string) :
  commute (Task_remove cid) (Task_update cid r w).
Proof.
  intros s. simpl. unfold set_s_tasks. simpl. f_equal.
  apply filter_map_swap. intros x. cbv beta.
  destruct (bound_to cid x) eqn:B; [|now rewrite B].
  destruct (break_task_same cid r w x) as [E1 E2]. now rewrite E1, E2, B.
Qed.

Lemma commute_tags_balance (cid uid : string) (inc : Q) :
  commute (User_update_tags cid) (User_update_balance uid inc).
Proof.
  intros s. simpl. unfold set_s_users. simpl. f_equal.
  apply map_update_first_swap; intros x; simpl;
    destruct (existsb (String.eqb cid) (u_challenges x) && has_tag cid x) eqn:E;
    unfold has_tag in *; simpl; rewrite ?E; reflexivity.
Qed.

Lemma commute_tags_save (cid : string) (saved : bool) (w : User) (n : string) :
  commute (User_update_tags cid) (winner_save saved w n).
Proof.
  intros s. destruct saved; [|reflexivity].
  simpl. unfold set_s_users, set_s_outbox. simpl. f_equal.
  apply map_update_first_swap; intros x; simpl;
    destruct (existsb (String.eqb cid) (u_challenges x) && has_tag cid x) eqn:E;
    unfold has_tag in *; simpl; rewrite ?E; reflexivity.
Qed.

Lemma commute_balance_save (uid : string) (inc : Q) (saved : bool) (w : User) (n : string) :
  u_id w <> uid ->
  commute (User_update_balance uid inc) (winner_save saved w n).
Proof.
  intros N s. destruct saved; [|reflexivity].
  simpl. unfold set_s_users, set_s_outbox. simpl. f_equal.
  apply update_first_swap; try reflexivity.
  intros x Hx. apply String.eqb_eq in Hx. rewrite Hx.
  apply String.eqb_neq. congruence.
Qed.

(** Requests that commute pairwise give the same database in every order. *)
Lemma allSettled_perm (l l' : list Op) :
  Permutation l l' ->
  (forall a b, In a l -> In b l -> commute a b) ->
  forall s, Q_allSettled l s = Q_allSettled l' s.
Proof.
  induction 1 as [|x l l' P IH|x y l|l l' l'' P1 IH1 P2 IH2]; intros C s.
  - reflexivity.
  - rewrite !allSettled_cons. apply IH. intros a b Ha Hb. apply C; now right.
  - rewrite !allSettled_cons. f_equal. apply C; simpl; tauto.
  - rewrite IH1 by exact C. apply IH2.
    intros a b Ha Hb.
    apply C; eapply Permutation_in; try apply Permutation_sym; eassumption.
Qed.

Lemma closeChal_commute (saved : bool) (c : Challenge) (b : Broken) (x y : Op) :
  (forall w, winner b = Some w -> u_id w <> c_leader c) ->
  In x (fst (_closeChal saved c b)) ->
  In y (fst (_closeChal saved c b)) ->
  commute x y.
Proof.
  intros Hw Hx Hy.
  destruct (closeChal_ops saved c b x Hx)
    as [->|[->|[->|[->|[->|[->|(w & W & ->)]]]]]];
    destruct (closeChal_ops saved c b y Hy)
      as [->|[->|[->|[->|[->|[->|(w' & W' & ->)]]]]]];
    try (intros s; reflexivity);
    try apply commute_tasks; try (apply commute_sym; apply commute_tasks);
    try apply commute_tags_balance; try (apply commute_sym; apply commute_tags_balance);
    try apply commute_tags_save; try (apply commute_sym; apply commute_tags_save);
    try (apply commute_balance_save; simpl; now apply Hw);
    try (apply commute_sym; apply commute_balance_save; simpl; now apply Hw).
  all: try (assert (w' = w) by congruence; subst w'; intros s; reflexivity).
  all: destruct saved; intros s; reflexivity.
Qed.

(** X13. Unless the winner is the leader of the challenge, the database a
    teardown leaves does not depend on the order in which its requests
    settle: it is the one obtained by running them in the order of issue. *)
Theorem teardown_order_irrelevant (saved : bool) (c : Challenge) (b : Broken) (s s' : Store) :
  (forall w, winner b = Some w -> u_id w <> c_leader c) ->
  settles (fst (_closeChal saved c b)) s s' ->
  s' = Q_allSettled (fst (_closeChal saved c b)) s.
Proof.
  intros Hw (order & Perm & ->). symmetry.
  apply allSettled_perm; [exact Perm|].
  intros x y Hx Hy. now apply (closeChal_commute saved c b).
Qed.

Lemma teardown_order_irrelevant_witness :
  let ops := fst (_closeChal true chal1 (mkBroken (Some "CHALLENGE_DELETED"%string) (Some bob))) in
  settles ops sample_store (Q_allSettled (rev ops) sample_store)
  /\ Q_allSettled (rev ops) sample_store = Q_allSettled ops sample_store.
Proof.
  intros ops.
  assert (S : settles ops sample_store (Q_allSettled (rev ops) sample_store)).
  { exists (rev ops). split; [apply Permutation_rev|reflexivity]. }
  split; [exact S|].
  apply (teardown_order_irrelevant true chal1
           (mkBroken (Some "CHALLENGE_DELETED"%string) (Some bob))); [|exact S].
  intros w [= <-]. discriminate.
Defined.



(** ** Teardown: tasks of other challenges *)

(** X15. A teardown neither removes, nor changes, nor adds a task that is
    not bound to the challenge, seed tasks of other challenges included,
    however its requests settle. *)
Theorem teardown_tasks_frame (saved : bool) (c : Challenge) (b : Broken) (s s' : Store)
        (t : Task) :
  settles (fst (_closeChal saved c b)) s s' ->
  bound_to (c_id c) t = false ->
  (In t (s_tasks s') <-> In t (s_tasks s)).
Proof.
  intros (order & Perm & ->) Hb.
  assert (Sub : forall op, In op order -> In op (fst (_closeChal saved c b))).
  { intros op Hin. apply (Permutation_in op (Permutation_sym Perm) Hin). }
  split.
  - apply (allSettled_preserved (fun s0 => In t (s_tasks s0) -> In t (s_tasks s)));
      [|tauto].
    intros op Hin s0 K Ht.
    destruct (closeChal_tasks_step saved c b op s0 (Sub op Hin)) as [E|[[_ E]|[_ E]]];
      rewrite E in Ht.
    + now apply K.
    + apply filter_In in Ht. now apply K.
    + apply in_map_iff in Ht as (t1 & Et & Ht1). apply K.
      unfold breaks in Et. destruct (bound_to (c_id c) t1) eqn:B1.
      * destruct (break_task_same (c_id c) (broken b) (option_map u_name (winner b)) t1)
          as [E1 _].
        rewrite Et in E1. congruence.
      * now subst.
  - apply (allSettled_preserved (fun s0 => In t (s_tasks s0))).
    intros op Hin s0 Ht.
    destruct (closeChal_tasks_step saved c b op s0 (Sub op Hin)) as [E|[[_ E]|[_ E]]];
      rewrite E.
    + exact Ht.
    + apply filter_In. split; [exact Ht|]. unfold keeps. now rewrite Hb.
    + apply in_map_iff. exists t. split; [|exact Ht]. unfold breaks. now rewrite Hb.
Qed.

Lemma teardown_tasks_frame_witness :
  let ops := fst (_closeChal true chal_public (mkBroken (Some "CHALLENGE_DELETED"%string) None)) in
  bound_to (c_id chal_public) seed1 = false
  /\ In seed1 (s_tasks (Q_allSettled ops wide_store)).
Proof.
  intros ops. split; [reflexivity|].
  apply (teardown_tasks_frame true chal_public
           (mkBroken (Some "CHALLENGE_DELETED"%string) None) wide_store _ seed1
           (settles_issue_order ops wide_store) eq_refl).
  simpl. tauto.
Defined.

(** ** The second callback of selectChallengeWinner *)

(** X19. The callback of lines 263-269 acknowledges exactly when the
    challenge and the proposed winner exist and the winner has joined the
    challenge.  In every other case it throws a TypeError, not the NotFound
    its message is meant for (the message reads [req.parama]), and changes
    nothing. *)
Theorem selectChallengeWinner_winner_answers
        (saved : bool) (challenge : option Challenge) (winner : option User) (s : Store) :
  (fst (selectChallengeWinner_winner saved challenge winner s) = respond 200 PEmpty
   <-> exists c w, challenge = Some c /\ winner = Some w /\ In (c_id c) (u_challenges w))
  /\ (forall e, fst (selectChallengeWinner_winner saved challenge winner s) = next e ->
      (exists msg, e = TypeError msg)
      /\ snd (selectChallengeWinner_winner saved challenge winner s) = s).
Proof.
  unfold selectChallengeWinner_winner.
  destruct winner as [w|].
  2:{ split; [split; [discriminate|intros (c & w & _ & ? & _); discriminate]|].
      intros e [= <-]. split; [now eexists|reflexivity]. }
  destruct challenge as [c|].
  2:{ split; [split; [discriminate|intros (c & ? & ? & _); discriminate]|].
      intros e [= <-]. split; [now eexists|reflexivity]. }
  unfold not_indexOf.
  destruct (existsb (String.eqb (c_id c)) (u_challenges w)) eqn:J; simpl.
  - split; [|discriminate]. split; [|reflexivity].
    intros _. exists c, w. repeat split. now apply existsb_eqb_In.
  - split.
    + split; [discriminate|]. intros (c' & w' & [= <-] & [= <-] & K).
      apply existsb_eqb_In in K. congruence.
    + intros e [= <-]. split; [now eexists|reflexivity].
Qed.

Lemma selectChallengeWinner_winner_answers_witness :
  fst (selectChallengeWinner_winner true (Some chal1) (Some bob) sample_store)
  = respond 200 PEmpty
  /\ selectChallengeWinner_winner true (Some chal1) (Some alice) sample_store
     = (next (TypeError "Cannot read property 'winnerId' of undefined"), sample_store).
Proof.
  split.
  - apply (proj1 (selectChallengeWinner_winner_answers true (Some chal1) (Some bob) sample_store)).
    exists chal1, bob. repeat split. simpl. tauto.
  - reflexivity.
Defined.

(** ** The routes of deleteChallenge and selectChallengeWinner *)

(** X16. deleteChallenge and selectChallengeWinner answer every request with
    validation errors and leave the database as it is: lines 212 and 247
    check the parameter 'challenge', while the routes bind 'challengeId', so
    the value checked is undefined and fails [notEmpty] and [isUUID],
    whatever the request carries. *)
Theorem routes_stop_at_validation (saved : bool) (req : Request) (user : User) (s : Store) :
  (exists errs, deleteChallenge saved req user s = (next (ValidationErrors errs), s))
  /\ (exists errs, selectChallengeWinner_route saved req user s
                   = (next (ValidationErrors errs), s)).
Proof.
  split.
  - eexists. apply deleteChallenge_stops.
  - eexists. reflexivity.
Qed.

(** ** Teardown without a winner *)

(** X18. A teardown that names no winner hands nothing to the mail and push
    services, in whatever order its requests settle. *)
Theorem teardown_without_winner_is_silent
        (saved : bool) (c : Challenge) (b : Broken) (s s' : Store) :
  winner b = None ->
  settles (fst (_closeChal saved c b)) s s' ->
  s_outbox s' = s_outbox s.
Proof.
  intros W St. rewrite (closeChal_outbox saved c b s s' St).
  unfold _closeChal. rewrite W. simpl. now rewrite app_nil_r.
Qed.

Lemma teardown_without_winner_is_silent_witness :
  let ops := fst (_closeChal true chal1 (mkBroken (Some "CHALLENGE_DELETED"%string) None)) in
  settles ops sample_store (Q_allSettled ops sample_store)
  /\ s_outbox (Q_allSettled ops sample_store) = s_outbox sample_store.
Proof.
  intros ops.
  assert (S : settles ops sample_store (Q_allSettled ops sample_store))
    by apply settles_issue_order.
  split; [exact S|].
  exact (teardown_without_winner_is_silent true chal1
           (mkBroken (Some "CHALLENGE_DELETED"%string) None) sample_store _ eq_refl S).
Defined.
